(** * The API generator of fast-starter

    A shallow embedding of
    [src/fast_starter/generators/file_generators/api_generator.py]
    (class [APIGenerator]) and the properties of the files it emits.

    Layout: the Python primitives the generator relies on ([Py]), the
    configuration it reads ([Config]), the generator itself
    ([APIGenerator]), the observations the properties are stated with
    ([Observe]), the generator with a collaborator that reads the
    environment of the call ([InEnvironment]), the two database-access
    idioms ([Idioms]), the handlers of the emitted auth module, as
    syntax with its printer and its interpreter ([AuthModule]), and some
    configurations ([Samples]); then the lemmas on strings, on the
    generator and on the handlers, and the properties of the
    specification.  Further properties of the generator and of the
    emitted handlers close the file; [LineShape] and [MemoryStore] hold
    what they are stated with. *)

From Stdlib Require Import String Ascii List Bool ZArith.
Import ListNotations.
Local Open Scope list_scope.
Local Open Scope string_scope.

(* ================================================================== *)
(** ** Python primitives *)
(* ================================================================== *)

Module Py.

(** Exceptions a [str.format] call or a dict subscript can raise. *)
Inductive exn : Type :=
| KeyError (key : string)
| IndexError (msg : string)
| ValueError (msg : string).

Inductive result (A : Type) : Type :=
| Ok (a : A)
| Err (e : exn).
Arguments Ok {A} a.
Arguments Err {A} e.

Definition bind {A B : Type} (r : result A) (k : A -> result B) : result B :=
  match r with
  | Ok a => k a
  | Err e => Err e
  end.

Definition fmap {A B : Type} (f : A -> B) (r : result A) : result B :=
  bind r (fun a => Ok (f a)).

(** The double quote, which a string literal here cannot hold, the
    newline, and the backquote that stands for the double quote. *)
Definition dq : ascii := "034"%char.
Definition nl : ascii := "010"%char.
Definition bq : ascii := "`"%char.

(** [py s] is the Python text written [s] here: the templates of the
    source are full of double quotes, which are written as backquotes
    (a character no template of the source uses) and put back by [py]. *)
Fixpoint py (s : string) : string :=
  match s with
  | EmptyString => EmptyString
  | String c s' => String (if Ascii.eqb c bq then dq else c) (py s')
  end.

(** [h.startswith(p)] *)
Fixpoint startswith (h p : string) : bool :=
  match p, h with
  | EmptyString, _ => true
  | String _ _, EmptyString => false
  | String a p', String b h' => Ascii.eqb a b && startswith h' p'
  end.

(** [h.endswith(s)] *)
Fixpoint endswith (h s : string) : bool :=
  String.eqb h s ||
  match h with
  | EmptyString => false
  | String _ h' => endswith h' s
  end.

(** [n in h] on strings: [n] occurs in [h] as a contiguous run. *)
Fixpoint contains (h n : string) : bool :=
  startswith h n ||
  match h with
  | EmptyString => false
  | String _ h' => contains h' n
  end.

(** Values passed to [str.format]: the generator passes strings and one
    boolean ([has_auth]); [str_of] is what [format(v, "")] yields. *)
Inductive pyval : Type :=
| VStr (s : string)
| VBool (b : bool).

Definition str_of (v : pyval) : string :=
  match v with
  | VStr s => s
  | VBool true => "True"
  | VBool false => "False"
  end.

(** A dict with string keys, in insertion order. *)
Definition dict : Type := list (string * pyval).

Fixpoint get (d : dict) (k : string) : option pyval :=
  match d with
  | [] => None
  | (k', v) :: d' => if String.eqb k k' then Some v else get d' k
  end.

(** [d[k]] *)
Definition subscript (d : dict) (k : string) : result pyval :=
  match get d k with
  | Some v => Ok v
  | None => Err (KeyError k)
  end.

(** [str.format] with keyword arguments [kw], read left to right as
    CPython's formatter does: [{{] and [}}] are the escaped braces,
    [{key}] is replaced by [format(kw[key], "")], a lone brace is a
    [ValueError], [{}] asks for a positional argument (there is none:
    [IndexError]).  A value is put in as it is and not read again.
    Conversions ([!r]) and format specs ([:x]) are not modelled: no
    template of the generator has any, and a field that had one would be
    looked up whole and raise [KeyError]. *)
Inductive fmt_state : Type :=
| Text                      (* between fields *)
| Open                      (* just read an opening brace *)
| InField (key : string)    (* inside a field, [key] read so far *)
| Close.                    (* just read a closing brace *)

Definition lone_close : exn := ValueError "Single '}' encountered in format string".
Definition lone_open : exn := ValueError "Single '{' encountered in format string".
Definition unclosed : exn := ValueError "expected '}' before end of string".
Definition no_positional : exn :=
  IndexError "Replacement index 0 out of range for positional args tuple".

Definition at_end (st : fmt_state) : result string :=
  match st with
  | Text => Ok EmptyString
  | Open => Err lone_open
  | InField _ => Err unclosed
  | Close => Err lone_close
  end.

Fixpoint format_from (st : fmt_state) (t : string) (kw : dict) : result string :=
  match t with
  | EmptyString => at_end st
  | String ch t' =>
    match st with
    | Text =>
      if Ascii.eqb ch "{" then format_from Open t' kw
      else if Ascii.eqb ch "}" then format_from Close t' kw
      else fmap (String ch) (format_from Text t' kw)
    | Open =>
      if Ascii.eqb ch "{" then fmap (String ch) (format_from Text t' kw)
      else if Ascii.eqb ch "}" then Err no_positional
      else format_from (InField (String ch EmptyString)) t' kw
    | InField key =>
      if Ascii.eqb ch "}" then
        bind (subscript kw key) (fun v =>
        fmap (append (str_of v)) (format_from Text t' kw))
      else format_from (InField (key ++ String ch EmptyString)) t' kw
    | Close =>
      if Ascii.eqb ch "}" then fmap (String ch) (format_from Text t' kw)
      else Err lone_close
    end
  end.

Definition format (t : string) (kw : dict) : result string :=
  format_from Text t kw.

End Py.
Import Py.

(* ================================================================== *)
(** ** The configuration *)
(* ================================================================== *)

(** Modelled from the spec: [core/config.py] is not part of the sources.
    The spec gives [project_type: enum{GENERIC, ML_API, MICROSERVICE}] and
    [auth_type: enum{NONE, <non-none variants>}]; the non-none variants
    are not named there, so they are told apart by a tag. *)
Inductive ProjectType : Type := GENERIC | ML_API | MICROSERVICE.
Inductive AuthType : Type := NONE | AuthVariant (tag : string).

(** Python does not check what an attribute holds: a field declared with
    an enum type holds either one of its members or some other object
    ([Foreign], with its [repr]).  An enum member equals only itself, so a
    foreign object equals no member. *)
Inductive field (E : Type) : Type :=
| Member (e : E)
| Foreign (repr : string).
Arguments Member {E} e.
Arguments Foreign {E} repr.

Definition ProjectType_eqb (a b : ProjectType) : bool :=
  match a, b with
  | GENERIC, GENERIC | ML_API, ML_API | MICROSERVICE, MICROSERVICE => true
  | _, _ => false
  end.

Definition AuthType_eqb (a b : AuthType) : bool :=
  match a, b with
  | NONE, NONE => true
  | AuthVariant s, AuthVariant t => String.eqb s t
  | _, _ => false
  end.

(** [v == m] and [v != m] for a member [m] *)
Definition eq_member {E : Type} (eqb : E -> E -> bool) (v : field E) (m : E) : bool :=
  match v with
  | Member e => eqb e m
  | Foreign _ => false
  end.

Definition ne_member {E : Type} (eqb : E -> E -> bool) (v : field E) (m : E) : bool :=
  negb (eq_member eqb v m).

(** What the generator reads of [self.config]. *)
Record Config : Type := mkConfig {
  name : string;
  path : string;
  project_type : field ProjectType;
  auth_type : field AuthType;
  is_async : bool
}.

(** A field is in its declared domain when it holds a member. *)
Definition in_domain {E : Type} (v : field E) : bool :=
  match v with
  | Member _ => true
  | Foreign _ => false
  end.

(* ================================================================== *)
(** ** The generator *)
(* ================================================================== *)

Module APIGenerator.

(** The File Writer: the files handed over so far, oldest first. *)
Definition written : Type := list (string * string).

(** A method of the generator: it may raise, and it may hand files to the
    writer; what was handed over before an exception stays handed over. *)
Definition action (A : Type) : Type := written -> result A * written.

Definition ret {A : Type} (a : A) : action A := fun w => (Ok a, w).

Definition seq {A B : Type} (m : action A) (k : A -> action B) : action B :=
  fun w =>
    match m w with
    | (Ok a, w') => k a w'
    | (Err e, w') => (Err e, w')
    end.

Definition lift {A : Type} (r : result A) : action A := fun w => (r, w).

Notation "x <- m ;; k" := (seq m (fun x => k))
  (at level 61, m at next level, right associativity).
Notation "m ;;; k" := (seq m (fun _ => k))
  (at level 61, right associativity).

(** Modelled from the spec: [BaseGenerator.write_file] is not part of the
    sources; the spec gives [write_file(path, content) -> void], a
    collaborator that persists the pair.  Its own I/O failures are the
    collaborator's and are left out. *)
Definition write_file (p content : string) : action unit :=
  fun w => (Ok tt, (w ++ [(p, content)])%list).

(** Modelled from the spec: [BaseGenerator.get_template_vars] is not part
    of the sources; the spec gives [project_name], the configured name,
    as the value interpolated into banners and messages. *)
Definition get_template_vars (c : Config) : dict :=
  [("project_name", VStr (name c))].

Definition has_auth (c : Config) : bool :=
  ne_member AuthType_eqb (auth_type c) NONE.

(** [_get_ml_endpoints] *)
Definition ml_template : string := py "
@router.post(`/predict`)
async def predict(
    input_data: dict,
    current_user: User = Depends(get_current_user) if {has_auth} else None
):
    ```Make ML prediction```
    from app.services.prediction_service import make_prediction
    try:
        result = await make_prediction(input_data)
        return {{`prediction`: result, `status`: `success`}}
    except Exception as e:
        raise HTTPException(status_code=400, detail=str(e))


@router.get(`/model/info`)
async def get_model_info(
    current_user: User = Depends(get_current_user) if {has_auth} else None
):
    ```Get ML model information```
    return {{
        `model_name`: `DefaultModel`,
        `version`: `1.0.0`,
        `description`: `Machine Learning model for predictions`
    }}
".

Definition _get_ml_endpoints (c : Config) : result string :=
  format ml_template [("has_auth", VBool (has_auth c))].

(** [_get_microservice_endpoints] *)
Definition microservice_template : string := py "
@router.get(`/status`)
async def service_status():
    ```Get service status```
    return {{
        `service`: `{project_name}`,
        `status`: `running`,
        `version`: `1.0.0`
    }}


@router.post(`/process`)
async def process_data(
    data: dict,
    current_user: User = Depends(get_current_user) if {has_auth} else None
):
    ```Process data```
    from app.services.processing_service import process_data
    try:
        result = await process_data(data)
        return {{`result`: result, `status`: `processed`}}
    except Exception as e:
        raise HTTPException(status_code=400, detail=str(e))
".

Definition _get_microservice_endpoints (c : Config) : result string :=
  format microservice_template
    [("project_name", VStr (name c)); ("has_auth", VBool (has_auth c))].

(** [_get_endpoints_template] *)
Definition endpoints_template : string := py "```
Main API Endpoints
```

from fastapi import APIRouter, Depends, HTTPException, status
{auth_imports}
{database_imports}

router = APIRouter()

{auth_endpoints_include}

@router.get(`/`)
async def root():
    ```Root endpoint```
    return {{`message`: `Welcome to {project_name} API`, `version`: `1.0.0`}}


@router.get(`/health`)
async def health_check():
    ```Health check endpoint```
    return {{`status`: `healthy`, `service`: `{project_name}`}}

{project_specific_endpoints}
".

Definition auth_imports (c : Config) : string :=
  if has_auth c then "from app.core.security import get_current_user"
  else EmptyString.

Definition auth_endpoints_include (c : Config) : string := EmptyString.

Definition database_imports (c : Config) : string :=
  if is_async c then
"from app.db.database import get_db
from sqlalchemy.ext.asyncio import AsyncSession
from app.models.auth import User"
  else
"from app.db.database import get_db
from sqlalchemy.orm import Session
from app.models.auth import User".

Definition project_specific_endpoints (c : Config) : result string :=
  if eq_member ProjectType_eqb (project_type c) ML_API then
    _get_ml_endpoints c
  else if eq_member ProjectType_eqb (project_type c) MICROSERVICE then
    _get_microservice_endpoints c
  else Ok EmptyString.

Definition _get_endpoints_template (c : Config) : result string :=
  bind (project_specific_endpoints c) (fun specific =>
  bind (subscript (get_template_vars c) "project_name") (fun project_name =>
  format endpoints_template
    [("project_name", project_name);
     ("auth_imports", VStr (auth_imports c));
     ("auth_endpoints_include", VStr (auth_endpoints_include c));
     ("database_imports", VStr (database_imports c));
     ("project_specific_endpoints", VStr specific)])).

(** [_get_auth_endpoints_template]: an f-string over three locals, read
    as [format] over those locals. *)
Definition auth_template : string := py "```
Authentication Endpoints
```

from datetime import timedelta
from fastapi import APIRouter, Depends, HTTPException, status
{session_import}
from app.core.config import settings
from app.db.database import get_db
from app.schemas.auth import Token, UserLogin, UserCreate, User as UserSchema
from app.core.security import authenticate_user, create_access_token, get_current_user, create_user

router = APIRouter()


@router.post(`/token`, response_model=Token)
async def login_for_access_token(
    user_credentials: UserLogin,
    db: {session_type} = Depends(get_db)
):
    ```Login endpoint to get access token```
    user = {await_keyword}authenticate_user(db, user_credentials.email, user_credentials.password)
    if not user:
        raise HTTPException(
            status_code=status.HTTP_401_UNAUTHORIZED,
            detail=`Incorrect email or password`,
            headers={{`WWW-Authenticate`: `Bearer`}},
        )
    
    access_token_expires = timedelta(minutes=settings.ACCESS_TOKEN_EXPIRE_MINUTES)
    access_token = create_access_token(
        data={{`sub`: user.email}}, expires_delta=access_token_expires
    )
    
    return {{`access_token`: access_token, `token_type`: `bearer`}}


@router.post(`/register`, response_model=UserSchema, status_code=status.HTTP_201_CREATED)
async def register_user(
    user_data: UserCreate,
    db: {session_type} = Depends(get_db)
):
    ```Register new user```
    # Check if user already exists
    from app.core.security import get_user_by_email
    existing_user = {await_keyword}get_user_by_email(db, user_data.email)
    if existing_user:
        raise HTTPException(
            status_code=status.HTTP_400_BAD_REQUEST,
            detail=`Email already registered`
        )
    
    # Create new user
    user = {await_keyword}create_user(db, user_data.email, user_data.password)
    return user


@router.get(`/me`, response_model=UserSchema)
async def read_users_me(current_user: UserSchema = Depends(get_current_user)):
    ```Get current user information```
    return current_user


@router.put(`/me`, response_model=UserSchema)
async def update_user_me(
    user_update: dict,
    current_user: UserSchema = Depends(get_current_user),
    db: {session_type} = Depends(get_db)
):    
    ```Update current user information```
    # Implementation for updating user profile
    # This is a placeholder - implement based on your needs
    return current_user
".

Definition session_import (c : Config) : string :=
  if is_async c then "from sqlalchemy.ext.asyncio import AsyncSession"
  else "from sqlalchemy.orm import Session".

Definition session_type (c : Config) : string :=
  if is_async c then "AsyncSession" else "Session".

Definition await_keyword (c : Config) : string :=
  if is_async c then "await " else EmptyString.

Definition _get_auth_endpoints_template (c : Config) : result string :=
  format auth_template
    [("session_import", VStr (session_import c));
     ("session_type", VStr (session_type c));
     ("await_keyword", VStr (await_keyword c))].

(** [_get_init_template] *)
Definition init_template_auth : string := py "```
API v1 Router
```

from fastapi import APIRouter
from .endpoints import router as endpoints_router
from .auth import router as auth_router

router = APIRouter()
router.include_router(endpoints_router)
router.include_router(auth_router, prefix=`/auth`, tags=[`authentication`])
".

Definition init_template_plain : string := py "```
API v1 Router
```

from .endpoints import router
".

Definition _get_init_template (c : Config) : result string :=
  Ok (if has_auth c then init_template_auth else init_template_plain).

(** The three output paths. *)
Definition endpoints_path (c : Config) : string := path c ++ "/app/api/v1/endpoints.py".
Definition auth_path (c : Config) : string := path c ++ "/app/api/v1/auth.py".
Definition init_path (c : Config) : string := path c ++ "/app/api/v1/__init__.py".

(** [generate] *)
Definition generate (c : Config) : action unit :=
  endpoints_content <- lift (_get_endpoints_template c) ;;
  write_file (endpoints_path c) endpoints_content ;;;
  (if has_auth c then
     auth_endpoints_content <- lift (_get_auth_endpoints_template c) ;;
     write_file (auth_path c) auth_endpoints_content
   else ret tt) ;;;
  init_content <- lift (_get_init_template c) ;;
  write_file (init_path c) init_content.

End APIGenerator.
Import APIGenerator.

(* ================================================================== *)
(** ** Observations on the generated files *)
(* ================================================================== *)

Module Observe.

(** [s.split(sep)] for a one-character separator *)
Fixpoint split (sep : ascii) (s : string) : list string :=
  match s with
  | EmptyString => [EmptyString]
  | String ch s' =>
    if Ascii.eqb ch sep then EmptyString :: split sep s'
    else match split sep s' with
         | h :: t => String ch h :: t
         | [] => [String ch EmptyString]
         end
  end.

Definition lines (s : string) : list string := split nl s.

(** The text before the first [ch] of [s], and the text after it. *)
Fixpoint before (ch : ascii) (s : string) : string :=
  match s with
  | EmptyString => EmptyString
  | String a s' => if Ascii.eqb a ch then EmptyString else String a (before ch s')
  end.

Fixpoint after (ch : ascii) (s : string) : string :=
  match s with
  | EmptyString => EmptyString
  | String a s' => if Ascii.eqb a ch then s' else after ch s'
  end.

Fixpoint skip (n : nat) (s : string) : string :=
  match n, s with
  | S n', String _ s' => skip n' s'
  | _, _ => s
  end.

(** An endpoint of a generated module is a line that registers a handler
    on the router: [@router.<method>("<path>"...)].  [routes] lists
    them, as (method, path), in the order of the file. *)
Definition route_of_line (l : string) : option (string * string) :=
  if startswith l "@router." then
    let call := skip 8 l in
    Some (before "(" call, before dq (after dq call))
  else None.

Fixpoint routes_of_lines (ls : list string) : list (string * string) :=
  match ls with
  | [] => []
  | l :: ls' =>
    match route_of_line l with
    | Some r => r :: routes_of_lines ls'
    | None => routes_of_lines ls'
    end
  end.

Definition routes (content : string) : list (string * string) :=
  routes_of_lines (lines content).

(** The decorator of the route [method path], as the templates write it. *)
Definition decorator (method route : string) : string :=
  "@router." ++ method ++ "(" ++ String dq route ++ String dq ")".

(** The two database-access idioms. *)
Definition sync_import : string := "from sqlalchemy.orm import Session".
Definition async_import : string := "from sqlalchemy.ext.asyncio import AsyncSession".

Definition db_import (async : bool) : string :=
  if async then async_import else sync_import.

(** The three data-access calls of the auth module, as a statement that
    binds their result, awaited or not. *)
Definition data_access_calls : list (string * string) :=
  [("user", "authenticate_user(db, user_credentials.email, user_credentials.password)");
   ("existing_user", "get_user_by_email(db, user_data.email)");
   ("user", "create_user(db, user_data.email, user_data.password)")].

Definition call_stmt (await : string) (call : string * string) : string :=
  "    " ++ fst call ++ " = " ++ await ++ snd call ++ String nl EmptyString.

Definition all_in (content : string) (needles : list string) : bool :=
  forallb (contains content) needles.

Definition none_in (content : string) (needles : list string) : bool :=
  forallb (fun n => negb (contains content n)) needles.

(** A text with holes: [fill v [p0; p1; ...; pk]] is
    [p0 ++ v ++ p1 ++ v ++ ... ++ pk]. *)
Fixpoint fill (v : string) (ps : list string) : string :=
  match ps with
  | [] => EmptyString
  | [p] => p
  | p :: ps' => p ++ v ++ fill v ps'
  end.

(** The proper non-empty prefixes and suffixes of a string. *)
Fixpoint proper_prefixes (s : string) : list string :=
  match s with
  | EmptyString => []
  | String ch s' =>
    match s' with
    | EmptyString => []
    | String _ _ => String ch EmptyString :: map (String ch) (proper_prefixes s')
    end
  end.

Fixpoint proper_suffixes (s : string) : list string :=
  match s with
  | EmptyString => []
  | String _ s' =>
    match s' with
    | EmptyString => []
    | String _ _ => s' :: proper_suffixes s'
    end
  end.

(** [n] could start at the end of [p]: a proper prefix of [n] ends [p]. *)
Definition overlap_end (p n : string) : bool :=
  existsb (endswith p) (proper_prefixes n).

(** [n] could end at the start of [p]: a proper suffix of [n] and [p]
    agree as far as both go. *)
Definition overlap_start (p n : string) : bool :=
  existsb (fun t => startswith p t || startswith t p) (proper_suffixes n).

(** A sufficient, computable condition for [n] not to occur in
    [fill v ps] for any [v] that does not contain [n] itself. *)
Fixpoint clear_of (n : string) (ps : list string) : bool :=
  match ps with
  | [] => true
  | [p] => negb (contains p n)
  | p :: ((q :: _) as ps') =>
    negb (contains p n) && negb (overlap_end p n) &&
    negb (overlap_start q n) && clear_of n ps'
  end.

(** The pieces of a generated text around the project name: the text is
    produced for a name that is a single NUL, a character no template
    holds, and cut there. *)
Definition marker : ascii := "000"%char.

Definition with_name (v : string) (c : Config) : Config :=
  mkConfig v (path c) (project_type c) (auth_type c) (is_async c).

Definition pieces_of (r : result string) : list string :=
  match r with
  | Ok s => split marker s
  | Err _ => []
  end.

Definition endpoints_pieces (c : Config) : list string :=
  pieces_of (_get_endpoints_template (with_name (String marker EmptyString) c)).

Definition specific_pieces (c : Config) : list string :=
  pieces_of (project_specific_endpoints (with_name (String marker EmptyString) c)).

(** The endpoints file without its project-specific fragment and final
    newline, in pieces: those of the file of the same configuration with
    the project type [GENERIC], less the last character. *)
Definition with_project_type (t : field ProjectType) (c : Config) : Config :=
  mkConfig (name c) (path c) t (auth_type c) (is_async c).

Fixpoint chop (s : string) : string :=
  match s with
  | EmptyString => EmptyString
  | String ch s' =>
    match s' with
    | EmptyString => EmptyString
    | String _ _ => String ch (chop s')
    end
  end.

Fixpoint map_last (f : string -> string) (l : list string) : list string :=
  match l with
  | [] => []
  | x :: l' =>
    match l' with
    | [] => [f x]
    | _ :: _ => x :: map_last f l'
    end
  end.

Definition frame_pieces (c : Config) : list string :=
  map_last chop (endpoints_pieces (with_project_type (Member GENERIC) c)).

End Observe.
Import Observe.

(* ================================================================== *)
(** ** The generator in an environment *)
(* ================================================================== *)

(** [BaseGenerator.get_template_vars] is not part of the sources, so what
    it reads is not known.  Here it is a parameter: any function of the
    configuration and of the environment of the call ([World]: clock,
    random source, process environment, file system), returning any
    dict.  [generate_in] is [generate] with this collaborator in the
    place of the pure [get_template_vars]; the rest of the generator
    reads [self.config] only, as the source does. *)
Module InEnvironment.

Definition _get_endpoints_template_in {World : Type}
    (template_vars : Config -> World -> dict) (c : Config) (w : World)
  : result string :=
  bind (project_specific_endpoints c) (fun specific =>
  bind (subscript (template_vars c w) "project_name") (fun project_name =>
  format endpoints_template
    [("project_name", project_name);
     ("auth_imports", VStr (auth_imports c));
     ("auth_endpoints_include", VStr (auth_endpoints_include c));
     ("database_imports", VStr (database_imports c));
     ("project_specific_endpoints", VStr specific)])).

Definition generate_in {World : Type}
    (template_vars : Config -> World -> dict) (c : Config) (w : World)
  : action unit :=
  endpoints_content <- lift (_get_endpoints_template_in template_vars c w) ;;
  write_file (endpoints_path c) endpoints_content ;;;
  (if has_auth c then
     auth_endpoints_content <- lift (_get_auth_endpoints_template c) ;;
     write_file (auth_path c) auth_endpoints_content
   else ret tt) ;;;
  init_content <- lift (_get_init_template c) ;;
  write_file (init_path c) init_content.

(** A collaborator that serves the configured name as [project_name]
    beside two values taken from the environment: the time of the call
    and a random token. *)
Record world : Type := mkWorld {
  clock : string;
  nonce : string
}.

Definition stamped_vars (c : Config) (w : world) : dict :=
  [("generated_at", VStr (clock w));
   ("project_name", VStr (name c));
   ("build_id", VStr (nonce w))].

(** A collaborator that takes the project name from the environment. *)
Definition ambient_vars (c : Config) (w : world) : dict :=
  [("project_name", VStr (nonce w))].

End InEnvironment.
Import InEnvironment.

(* ================================================================== *)
(** ** The two database-access idioms *)
(* ================================================================== *)

(** The tokens by which the templates differ with [is_async]: the
    session import ([session_import], [database_imports]), the type of
    the [db] parameter ([session_type]) and the data-access calls, bound
    bare or awaited ([await_keyword]). *)
Module Idioms.

Definition db_parameter (session : string) : string :=
  "db: " ++ session ++ " = Depends(get_db)".

(** A data-access call with the variable it is bound to. *)
Definition call_text (await : string) (call : string * string) : string :=
  fst call ++ " = " ++ await ++ snd call.

Definition sync_idiom : list string :=
  sync_import :: db_parameter "Session"
    :: map (call_text EmptyString) data_access_calls.

Definition async_idiom : list string :=
  async_import :: db_parameter "AsyncSession"
    :: map (call_text "await ") data_access_calls.

Definition idiom (async : bool) : list string :=
  if async then async_idiom else sync_idiom.

(** An idiom appears in a text when one of its tokens occurs in it. *)
Definition appears (tokens : list string) (content : string) : bool :=
  existsb (contains content) tokens.

End Idioms.
Import Idioms.

(* ================================================================== *)
(** ** The handlers of the emitted auth module *)
(* ================================================================== *)

(** The login and registration handlers that [auth_template] emits are
    Python text.  They are given here as syntax trees: [print_handler]
    writes a tree as the text the template holds, and [run] executes it.
    What the handlers import from the generated application
    ([app.core.security], [app.core.config]) is a parameter
    ([Security]); the database session is threaded through the calls
    that receive it.  A call is executed to its result whether it is
    awaited or not. *)
Module AuthModule.

(** *** Syntax *)

(** How the arguments of a call are laid out; it has no meaning. *)
Inductive layout : Type :=
| Flat                                  (* f(a, b) *)
| OnePerLine (trailing_comma : bool)    (* one argument per line *)
| Hanging.                              (* all arguments on a line of their own *)

#[warnings="-register-all"]
Inductive expr : Type :=
| Name (x : string)
| Attr (e : expr) (a : string)
| Str (s : string)
| Call (f : expr) (args : list expr) (kwargs : list (string * expr)) (shape : layout)
| Await (e : expr)
| Not (e : expr)
| Dict (items : list (expr * expr)).

#[warnings="-register-all"]
Inductive stmt : Type :=
| Doc (s : string)
| Comment (s : string)
| Blank
| ImportFrom (module name : string)
| Assign (x : string) (e : expr)
| If (cond : expr) (body : list stmt)
| Raise (e : expr)
| Return (e : expr).

Record param : Type := mkParam {
  pname : string;
  annotation : expr;
  default : option expr
}.

Record handler : Type := mkHandler {
  decorator : expr;
  hname : string;
  params : list param;
  body : list stmt
}.

(** *** Concrete syntax *)

Fixpoint indent (level : nat) : string :=
  match level with
  | O => EmptyString
  | S n => "    " ++ indent n
  end.

Fixpoint join (sep : string) (l : list string) : string :=
  match l with
  | [] => EmptyString
  | [x] => x
  | x :: l' => x ++ sep ++ join sep l'
  end.

(** One argument per line, each line indented by [pad]. *)
Fixpoint stacked (pad : string) (trailing_comma : bool) (l : list string) : string :=
  match l with
  | [] => EmptyString
  | x :: l' =>
    match l' with
    | [] => pad ++ x ++ (if trailing_comma then "," else EmptyString)
              ++ String nl EmptyString
    | _ :: _ => pad ++ x ++ "," ++ String nl (stacked pad trailing_comma l')
    end
  end.

Definition arguments (level : nat) (shape : layout) (items : list string) : string :=
  match shape with
  | Flat => join ", " items
  | OnePerLine trailing_comma =>
    String nl (stacked (indent (S level)) trailing_comma items) ++ indent level
  | Hanging =>
    String nl (indent (S level) ++ join ", " items) ++ String nl (indent level)
  end.

Fixpoint print_expr (level : nat) (e : expr) : string :=
  match e with
  | Name x => x
  | Attr e' a => print_expr level e' ++ "." ++ a
  | Str s => String dq s ++ String dq EmptyString
  | Call f args kwargs shape =>
    let inner := match shape with Flat => level | _ => S level end in
    print_expr level f ++ "(" ++
    arguments level shape
      (List.app (map (print_expr inner) args)
         (map (fun kv => fst kv ++ "=" ++ print_expr inner (snd kv)) kwargs))
    ++ ")"
  | Await e' => "await " ++ print_expr level e'
  | Not e' => "not " ++ print_expr level e'
  | Dict items =>
    "{" ++ join ", " (map (fun kv => print_expr level (fst kv) ++ ": "
                                     ++ print_expr level (snd kv)) items) ++ "}"
  end.

Definition line (level : nat) (text : string) : string :=
  indent level ++ text ++ String nl EmptyString.

Fixpoint print_stmt (level : nat) (s : stmt) : string :=
  match s with
  | Doc d => line level (py "```" ++ d ++ py "```")
  | Comment t => line level ("# " ++ t)
  | Blank => line level EmptyString
  | ImportFrom m n => line level ("from " ++ m ++ " import " ++ n)
  | Assign x e => line level (x ++ " = " ++ print_expr level e)
  | If c b =>
    line level ("if " ++ print_expr level c ++ ":") ++
    String.concat EmptyString (map (print_stmt (S level)) b)
  | Raise e => line level ("raise " ++ print_expr level e)
  | Return e => line level ("return " ++ print_expr level e)
  end.

Definition print_block (level : nat) (b : list stmt) : string :=
  String.concat EmptyString (map (print_stmt level) b).

Definition print_param (p : param) : string :=
  pname p ++ ": " ++ print_expr 1 (annotation p) ++
  match default p with
  | Some d => " = " ++ print_expr 1 d
  | None => EmptyString
  end.

Definition print_handler (h : handler) : string :=
  line 0 ("@" ++ print_expr 0 (decorator h)) ++
  line 0 ("async def " ++ hname h ++ "(" ++
          arguments 0 (OnePerLine false) (map print_param (params h)) ++ "):") ++
  print_block 1 (body h).

(** *** The two handlers *)

Definition data_access (awaited : bool) (call : expr) : expr :=
  if awaited then Await call else call.

Definition db_param (session : string) : param :=
  mkParam "db" (Name session) (Some (Call (Name "Depends") [Name "get_db"] [] Flat)).

(** [login_for_access_token], as the template holds it with
    [session_type] and [await_keyword] filled in. *)
Definition login_for_access_token (session : string) (awaited : bool) : handler :=
  mkHandler
    (Call (Attr (Name "router") "post") [Str "/token"]
       [("response_model", Name "Token")] Flat)
    "login_for_access_token"
    [mkParam "user_credentials" (Name "UserLogin") None; db_param session]
    [Doc "Login endpoint to get access token";
     Assign "user"
       (data_access awaited
          (Call (Name "authenticate_user")
             [Name "db"; Attr (Name "user_credentials") "email";
              Attr (Name "user_credentials") "password"] [] Flat));
     If (Not (Name "user"))
       [Raise (Call (Name "HTTPException") []
                 [("status_code", Attr (Name "status") "HTTP_401_UNAUTHORIZED");
                  ("detail", Str "Incorrect email or password");
                  ("headers", Dict [(Str "WWW-Authenticate", Str "Bearer")])]
                 (OnePerLine true))];
     Blank;
     Assign "access_token_expires"
       (Call (Name "timedelta") []
          [("minutes", Attr (Name "settings") "ACCESS_TOKEN_EXPIRE_MINUTES")] Flat);
     Assign "access_token"
       (Call (Name "create_access_token") []
          [("data", Dict [(Str "sub", Attr (Name "user") "email")]);
           ("expires_delta", Name "access_token_expires")] Hanging);
     Blank;
     Return (Dict [(Str "access_token", Name "access_token");
                   (Str "token_type", Str "bearer")])].

(** [register_user], likewise. *)
Definition register_user (session : string) (awaited : bool) : handler :=
  mkHandler
    (Call (Attr (Name "router") "post") [Str "/register"]
       [("response_model", Name "UserSchema");
        ("status_code", Attr (Name "status") "HTTP_201_CREATED")] Flat)
    "register_user"
    [mkParam "user_data" (Name "UserCreate") None; db_param session]
    [Doc "Register new user";
     Comment "Check if user already exists";
     ImportFrom "app.core.security" "get_user_by_email";
     Assign "existing_user"
       (data_access awaited
          (Call (Name "get_user_by_email")
             [Name "db"; Attr (Name "user_data") "email"] [] Flat));
     If (Name "existing_user")
       [Raise (Call (Name "HTTPException") []
                 [("status_code", Attr (Name "status") "HTTP_400_BAD_REQUEST");
                  ("detail", Str "Email already registered")]
                 (OnePerLine false))];
     Blank;
     Comment "Create new user";
     Assign "user"
       (data_access awaited
          (Call (Name "create_user")
             [Name "db"; Attr (Name "user_data") "email";
              Attr (Name "user_data") "password"] [] Flat));
     Return (Name "user")].

(** The handlers of the auth file of a configuration. *)
Definition login_of (c : Config) : handler :=
  login_for_access_token (session_type c) (is_async c).

Definition register_of (c : Config) : handler :=
  register_user (session_type c) (is_async c).

(** The imports at the head of the auth file that the handlers use. *)
Definition header_imports : list string :=
  ["from datetime import timedelta";
   "from fastapi import APIRouter, Depends, HTTPException, status";
   "from app.core.config import settings";
   "from app.core.security import authenticate_user, create_access_token, get_current_user, create_user"].

(** *** Execution *)

(** [fastapi.HTTPException] *)
Record HTTPException : Type := mkHTTPException {
  status_code : Z;
  detail : string;
  headers : list (string * string)
}.

(** Exceptions that are no HTTP response of the handler's own. *)
Inductive error : Type :=
| NameError (name : string)
| AttributeError (attr : string)
| ImportError (name : string)
| TypeError (what : string)
| OverflowError.

Inductive outcome (A : Type) : Type :=
| Returned (a : A)
| Raised (e : HTTPException)
| Uncaught (e : error).
Arguments Returned {A} a.
Arguments Raised {A} e.
Arguments Uncaught {A} e.

(** [app.core.security] and [settings], over a database [DB] and a user
    model [User].  A lookup that finds nothing returns a falsy value
    ([None]).  [create_access_token] receives the claims and the expiry,
    a [timedelta], here its minutes. *)
Record Security (DB User : Type) : Type := mkSecurity {
  authenticate_user : DB -> string -> string -> option User * DB;
  get_user_by_email : DB -> string -> option User * DB;
  create_user : DB -> string -> string -> User * DB;
  create_access_token : list (string * string) -> Z -> string;
  user_email : User -> string;
  ACCESS_TOKEN_EXPIRE_MINUTES : Z
}.
Arguments authenticate_user {DB User} _ _ _ _.
Arguments get_user_by_email {DB User} _ _ _.
Arguments create_user {DB User} _ _ _ _.
Arguments create_access_token {DB User} _ _ _.
Arguments user_email {DB User} _ _.
Arguments ACCESS_TOKEN_EXPIRE_MINUTES {DB User} _.

(** The body of a login or registration request. *)
Record Credentials : Type := mkCredentials {
  email : string;
  password : string
}.

(** [datetime.timedelta(minutes=m)] for an int [m]: the days of the
    normalised value are [m // 1440], and a magnitude above 999999999
    days is an [OverflowError]. *)
Definition timedelta_minutes (m : Z) : option Z :=
  if (Z.leb (-999999999) (Z.div m 1440) && Z.leb (Z.div m 1440) 999999999)%bool
  then Some m else None.

#[warnings="-register-all"]
Inductive value (User : Type) : Type :=
| VNone
| VBool (b : bool)
| VInt (z : Z)
| VStr (s : string)
| VUser (u : User)
| VSession
| VRequest (d : Credentials)
| VDict (items : list (string * value User))
| VException (e : HTTPException)
| VDelta (minutes : Z)
| VFun (name : string)
| VMod (name : string).
Arguments VNone {User}.
Arguments VBool {User} b.
Arguments VInt {User} z.
Arguments VStr {User} s.
Arguments VUser {User} u.
Arguments VSession {User}.
Arguments VRequest {User} d.
Arguments VDict {User} items.
Arguments VException {User} e.
Arguments VDelta {User} minutes.
Arguments VFun {User} name.
Arguments VMod {User} name.

(** The names bound at the head of the auth file.  [get_user_by_email]
    is not among them: the registration handler imports it itself. *)
Definition auth_globals {User : Type} : list (string * value User) :=
  [("timedelta", VFun "timedelta");
   ("HTTPException", VFun "HTTPException");
   ("status", VMod "status");
   ("settings", VMod "settings");
   ("authenticate_user", VFun "authenticate_user");
   ("create_access_token", VFun "create_access_token");
   ("create_user", VFun "create_user")].

Section Execution.

Context {DB User : Type} (sec : Security DB User).

Definition env : Type := list (string * value User).

(** A computation on the database that returns, raises or fails. *)
Definition run_on (A : Type) : Type := DB -> outcome A * DB.

Definition unit_ {A : Type} (a : A) : run_on A := fun db => (Returned a, db).

Definition fail {A : Type} (e : error) : run_on A := fun db => (Uncaught e, db).

Definition raise {A : Type} (e : HTTPException) : run_on A := fun db => (Raised e, db).

Definition then_ {A B : Type} (m : run_on A) (k : A -> run_on B) : run_on B :=
  fun db =>
    match m db with
    | (Returned a, db') => k a db'
    | (Raised e, db') => (Raised e, db')
    | (Uncaught e, db') => (Uncaught e, db')
    end.

Fixpoint lookup {A : Type} (l : list (string * A)) (k : string) : option A :=
  match l with
  | [] => None
  | (k', v) :: l' => if String.eqb k k' then Some v else lookup l' k
  end.

(** Truth value testing: [None], [False], zero and the empty string or
    dict are false, any other object is true. *)
Definition truthy (v : value User) : bool :=
  match v with
  | VNone => false
  | VBool b => b
  | VInt z => negb (Z.eqb z 0)
  | VStr s => negb (String.eqb s EmptyString)
  | VDict items => match items with [] => false | _ :: _ => true end
  | _ => true
  end.

Definition of_user (o : option User) : value User :=
  match o with
  | Some u => VUser u
  | None => VNone
  end.

(** A dict whose values are all strings. *)
Fixpoint strings (items : list (string * value User)) : option (list (string * string)) :=
  match items with
  | [] => Some []
  | (k, VStr s) :: items' => option_map (cons (k, s)) (strings items')
  | _ :: _ => None
  end.

(** [v.a] *)
Definition attribute (v : value User) (a : string) : run_on (value User) :=
  match v with
  | VRequest d =>
    if String.eqb a "email" then unit_ (VStr (email d))
    else if String.eqb a "password" then unit_ (VStr (password d))
    else fail (AttributeError a)
  | VUser u =>
    if String.eqb a "email" then unit_ (VStr (user_email sec u))
    else fail (AttributeError a)
  | VMod m =>
    if String.eqb m "status" then
      if String.eqb a "HTTP_400_BAD_REQUEST" then unit_ (VInt 400)
      else if String.eqb a "HTTP_401_UNAUTHORIZED" then unit_ (VInt 401)
      else if String.eqb a "HTTP_201_CREATED" then unit_ (VInt 201)
      else fail (AttributeError a)
    else if String.eqb m "settings" then
      if String.eqb a "ACCESS_TOKEN_EXPIRE_MINUTES"
      then unit_ (VInt (ACCESS_TOKEN_EXPIRE_MINUTES sec))
      else fail (AttributeError a)
    else fail (AttributeError a)
  | _ => fail (AttributeError a)
  end.

(** A call of one of the functions the handlers use. *)
Definition apply (f : string) (args : list (value User))
    (kwargs : list (string * value User)) : run_on (value User) :=
  if String.eqb f "authenticate_user" then
    match args, kwargs with
    | [VSession; VStr e; VStr p], [] =>
      fun db => let (o, db') := authenticate_user sec db e p in
                (Returned (of_user o), db')
    | _, _ => fail (TypeError f)
    end
  else if String.eqb f "get_user_by_email" then
    match args, kwargs with
    | [VSession; VStr e], [] =>
      fun db => let (o, db') := get_user_by_email sec db e in
                (Returned (of_user o), db')
    | _, _ => fail (TypeError f)
    end
  else if String.eqb f "create_user" then
    match args, kwargs with
    | [VSession; VStr e; VStr p], [] =>
      fun db => let (u, db') := create_user sec db e p in
                (Returned (VUser u), db')
    | _, _ => fail (TypeError f)
    end
  else if String.eqb f "create_access_token" then
    match args, lookup kwargs "data", lookup kwargs "expires_delta" with
    | [], Some (VDict claims), Some (VDelta minutes) =>
      match strings claims, List.length kwargs with
      | Some l, 2 => unit_ (VStr (create_access_token sec l minutes))
      | _, _ => fail (TypeError f)
      end
    | _, _, _ => fail (TypeError f)
    end
  else if String.eqb f "timedelta" then
    match args, lookup kwargs "minutes", List.length kwargs with
    | [], Some (VInt m), 1 =>
      match timedelta_minutes m with
      | Some minutes => unit_ (VDelta minutes)
      | None => fail OverflowError
      end
    | _, _, _ => fail (TypeError f)
    end
  else if String.eqb f "HTTPException" then
    match args, lookup kwargs "status_code", lookup kwargs "detail" with
    | [], Some (VInt code), Some (VStr text) =>
      match lookup kwargs "headers", List.length kwargs with
      | None, 2 => unit_ (VException (mkHTTPException code text []))
      | Some (VDict h), 3 =>
        match strings h with
        | Some l => unit_ (VException (mkHTTPException code text l))
        | None => fail (TypeError f)
        end
      | _, _ => fail (TypeError f)
      end
    | _, _, _ => fail (TypeError f)
    end
  else fail (TypeError f).

(** Expressions, evaluated left to right. *)
Fixpoint eval (e : expr) (en : env) {struct e} : run_on (value User) :=
  match e with
  | Name x =>
    match lookup en x with
    | Some v => unit_ v
    | None => fail (NameError x)
    end
  | Attr e' a => then_ (eval e' en) (fun v => attribute v a)
  | Str s => unit_ (VStr s)
  | Call f args kwargs _ =>
    then_ (eval f en) (fun fv =>
    then_ ((fix each (l : list expr) : run_on (list (value User)) :=
              match l with
              | [] => unit_ []
              | a :: l' =>
                then_ (eval a en) (fun v =>
                then_ (each l') (fun vs => unit_ (v :: vs)))
              end) args) (fun vs =>
    then_ ((fix each (l : list (string * expr))
              : run_on (list (string * value User)) :=
              match l with
              | [] => unit_ []
              | (k, a) :: l' =>
                then_ (eval a en) (fun v =>
                then_ (each l') (fun kvs => unit_ ((k, v) :: kvs)))
              end) kwargs) (fun kvs =>
    match fv with
    | VFun name => apply name vs kvs
    | _ => fail (TypeError "object is not callable")
    end)))
  | Await e' => eval e' en
  | Not e' => then_ (eval e' en) (fun v => unit_ (VBool (negb (truthy v))))
  | Dict items =>
    then_ ((fix each (l : list (expr * expr))
              : run_on (list (string * value User)) :=
              match l with
              | [] => unit_ []
              | (k, a) :: l' =>
                then_ (eval k en) (fun kv =>
                then_ (eval a en) (fun v =>
                then_ (each l') (fun kvs =>
                match kv with
                | VStr s => unit_ ((s, v) :: kvs)
                | _ => fail (TypeError "key")
                end)))
              end) items) (fun kvs => unit_ (VDict kvs))
  end.

(** What a statement leaves: the bindings, or the value returned. *)
Inductive flow : Type :=
| Next (en : env)
| Done (v : value User).

(** [from m import n] for what the generated application exports. *)
Definition exported (m n : string) : bool :=
  String.eqb m "app.core.security" && String.eqb n "get_user_by_email".

Fixpoint exec (s : stmt) (en : env) {struct s} : run_on flow :=
  match s with
  | Doc _ | Comment _ | Blank => unit_ (Next en)
  | ImportFrom m n =>
    if exported m n then unit_ (Next ((n, VFun n) :: en))
    else fail (ImportError n)
  | Assign x e => then_ (eval e en) (fun v => unit_ (Next ((x, v) :: en)))
  | If c b =>
    then_ (eval c en) (fun v =>
    if truthy v then
      (fix block (l : list stmt) (en' : env) : run_on flow :=
         match l with
         | [] => unit_ (Next en')
         | s' :: l' =>
           then_ (exec s' en') (fun r =>
           match r with
           | Next en'' => block l' en''
           | Done w => unit_ (Done w)
           end)
         end) b en
    else unit_ (Next en))
  | Raise e =>
    then_ (eval e en) (fun v =>
    match v with
    | VException ex => raise ex
    | _ => fail (TypeError "exceptions must derive from BaseException")
    end)
  | Return e => then_ (eval e en) (fun v => unit_ (Done v))
  end.

Fixpoint exec_block (l : list stmt) (en : env) : run_on flow :=
  match l with
  | [] => unit_ (Next en)
  | s :: l' =>
    then_ (exec s en) (fun r =>
    match r with
    | Next en' => exec_block l' en'
    | Done w => unit_ (Done w)
    end)
  end.

(** The parameters bound to the arguments of the request, in order. *)
Fixpoint bind_params (ps : list param) (args : list (value User)) : option env :=
  match ps, args with
  | [], [] => Some []
  | p :: ps', v :: args' => option_map (cons (pname p, v)) (bind_params ps' args')
  | _, _ => None
  end.

(** A request served by a handler: its parameters are bound over the
    names of the module, and its body is run; a body that ends without
    [return] returns [None]. *)
Definition run (h : handler) (args : list (value User)) : run_on (value User) :=
  match bind_params (params h) args with
  | Some locals =>
    then_ (exec_block (body h) (locals ++ auth_globals)%list) (fun r =>
    match r with
    | Done v => unit_ v
    | Next _ => unit_ VNone
    end)
  | None => fail (TypeError (hname h))
  end.

(** A registration request and a login request. *)
Definition register (h : handler) (d : Credentials) : run_on (value User) :=
  run h [VRequest d; VSession].

Definition login (h : handler) (d : Credentials) : run_on (value User) :=
  run h [VRequest d; VSession].

(** The database after a run of registration requests. *)
Definition after_registrations (h : handler) (ds : list Credentials) (db : DB) : DB :=
  fold_left (fun db' d => snd (register h d db')) ds db.

End Execution.

End AuthModule.

(* ================================================================== *)
(** ** Sample configurations *)
(* ================================================================== *)

Module Samples.

(** An ML API without auth, async. *)
Definition ml_plain_async : Config :=
  mkConfig "vision" "out" (Member ML_API) (Member NONE) true.

(** An ML API without auth, sync. *)
Definition ml_plain_sync : Config :=
  mkConfig "vision" "out" (Member ML_API) (Member NONE) false.

(** A microservice with auth, sync. *)
Definition micro_auth_sync : Config :=
  mkConfig "billing" "out" (Member MICROSERVICE) (Member (AuthVariant "jwt")) false.

(** A generic project with auth, async. *)
Definition generic_auth_async : Config :=
  mkConfig "portal" "srv" (Member GENERIC) (Member (AuthVariant "oauth2")) true.

(** A project without auth whose name holds the text [/auth]. *)
Definition named_auth : Config :=
  mkConfig "files/auth" "out" (Member GENERIC) (Member NONE) false.

(** A microservice whose name holds two route decorators, each on a
    line of its own. *)
Definition named_routes : Config :=
  mkConfig (py "svc
@router.post(`/predict`)
@router.get(`/model/info`)
") "out" (Member MICROSERVICE) (Member NONE) false.

(** Both enum fields hold an object that is no member of the enum. *)
Definition foreign : Config :=
  mkConfig "demo" "out" (Foreign "'graphql'") (Foreign "'ldap'") false.

(** A project without auth whose name holds the security import on a
    line of its own. *)
Definition named_import : Config :=
  mkConfig "svc
from app.core.security import get_current_user
svc" "out" (Member ML_API) (Member NONE) false.

(** A sync project whose name is the session import of the async
    idiom. *)
Definition named_async_import : Config :=
  mkConfig "from sqlalchemy.ext.asyncio import AsyncSession" "out"
    (Member GENERIC) (Member NONE) false.

End Samples.


(* ================================================================== *)
(** ** Lines around the project name *)
(* ================================================================== *)

Module LineShape.

(** A text with no line break in it. *)
Fixpoint single_line (s : string) : bool :=
  match s with
  | EmptyString => true
  | String ch s' => negb (Ascii.eqb ch nl) && single_line s'
  end.

(** The last, unfinished line of [cur ++ p], for a [cur] that is one
    line: what follows the last line break. *)
Fixpoint last_line_from (cur p : string) : string :=
  match p with
  | EmptyString => cur
  | String ch p' =>
    if Ascii.eqb ch nl then last_line_from EmptyString p'
    else last_line_from (cur ++ String ch EmptyString) p'
  end.

(** Two strings agree as far as both go. *)
Definition agree (a b : string) : bool := startswith a b || startswith b a.

Definition route_mark : string := "@router.".

(** A line that starts with [x] cannot be a route line. *)
Definition no_route_start (x : string) : bool := negb (agree x route_mark).

(** In [acc ++ fill v ps], every hole stands on a line whose start,
    fixed by the pieces before it, is not that of a route line. *)
Fixpoint holes_off_routes (acc : string) (ps : list string) : bool :=
  match ps with
  | [] => true
  | p :: ps' =>
    match ps' with
    | [] => true
    | _ :: _ =>
      no_route_start (last_line_from EmptyString (acc ++ p)) &&
      holes_off_routes (acc ++ p) ps'
    end
  end.

(** The routes each project type adds to the endpoints file. *)
Definition specific_routes (t : field ProjectType) : list (string * string) :=
  match t with
  | Member ML_API => [("post", "/predict"); ("get", "/model/info")]
  | Member MICROSERVICE => [("get", "/status"); ("post", "/process")]
  | _ => []
  end.

(** Some hole of [fill v ps] stands between a piece that ends with [a]
    and a piece that starts with [b]. *)
Fixpoint seam (a b : string) (ps : list string) : bool :=
  match ps with
  | [] => false
  | p :: ps' =>
    match ps' with
    | [] => false
    | q :: _ => (endswith p a && startswith q b) || seam a b ps'
    end
  end.

End LineShape.
Import LineShape.

(* ================================================================== *)
(** ** A security layer in memory *)
(* ================================================================== *)

(** An instance of what the auth module imports, over a list of
    (email, password) records, newest first: a user is its email. *)
Module MemoryStore.

Definition DB : Type := list (string * string).

Definition lookup (db : DB) (e : string) : option (string * string) :=
  find (fun r => String.eqb (fst r) e) db.

Definition security_with_expiry (minutes : Z) : AuthModule.Security DB string :=
  AuthModule.mkSecurity DB string
    (fun db e p =>
       (match lookup db e with
        | Some r => if String.eqb (snd r) p then Some (fst r) else None
        | None => None
        end, db))
    (fun db e => (option_map fst (lookup db e), db))
    (fun db e p => (e, (e, p) :: db))
    (fun data expires =>
       match data with
       | (_, sub) :: _ => "token for " ++ sub
       | [] => "token"
       end)
    (fun u => u)
    minutes.

(** Tokens that expire after half an hour. *)
Definition security : AuthModule.Security DB string := security_with_expiry 30.

(** Tokens meant to last ten million million minutes, more than a
    [timedelta] holds. *)
Definition security_forever : AuthModule.Security DB string :=
  security_with_expiry 10000000000000.

Definition alice : AuthModule.Credentials :=
  AuthModule.mkCredentials "alice@example.org" "s3cret".

Definition bob : AuthModule.Credentials :=
  AuthModule.mkCredentials "bob@example.org" "hunter2".

End MemoryStore.

(* ================================================================== *)
(** ** Facts about the string primitives *)
(* ================================================================== *)

Lemma append_assoc_r (a b c : string) : (a ++ b) ++ c = a ++ (b ++ c).
Proof.
  induction a as [|ch a IH]; simpl; [reflexivity | now rewrite IH].
Qed.

Lemma append_inj_l (p a b : string) : p ++ a = p ++ b -> a = b.
Proof.
  induction p as [|ch p IH]; simpl; intros H; [exact H | ].
  injection H as H. auto.
Qed.

Lemma startswith_nil_l (n : string) : startswith EmptyString n = true -> n = EmptyString.
Proof.
  destruct n; simpl; [reflexivity | discriminate].
Qed.

Lemma startswith_app (a b n : string) :
  startswith a n = true -> startswith (a ++ b) n = true.
Proof.
  revert n; induction a as [|ch a IH]; intros n H.
  - apply startswith_nil_l in H; subst; destruct b; reflexivity.
  - destruct n as [|d n]; [reflexivity | ].
    simpl in *. apply andb_true_iff in H as [Hd Hn].
    rewrite Hd. simpl. auto.
Qed.

Lemma startswith_app_self (a b : string) : startswith (a ++ b) a = true.
Proof.
  induction a as [|ch a IH]; simpl.
  - destruct b; reflexivity.
  - now rewrite Ascii.eqb_refl.
Qed.

(** A prefix of [a ++ b] is a prefix of [a], or is [a] and a non-empty
    prefix of [b]. *)
Lemma startswith_split (a b n : string) :
  startswith (a ++ b) n = true ->
  startswith a n = true \/
  exists n2, n = a ++ n2 /\ n2 <> EmptyString /\ startswith b n2 = true.
Proof.
  revert n; induction a as [|ch a IH]; intros n H.
  - destruct n as [|d n]; [left; reflexivity | ].
    right. exists (String d n). repeat split; [discriminate | exact H].
  - destruct n as [|d n]; [left; reflexivity | ].
    simpl in H. apply andb_true_iff in H as [Hd Hn].
    apply Ascii.eqb_eq in Hd; subst d.
    destruct (IH _ Hn) as [Ha | (n2 & -> & Hne & Hb)].
    + left. simpl. now rewrite Ascii.eqb_refl.
    + right. exists n2. repeat split; assumption.
Qed.

Lemma contains_unfold (h n : string) :
  contains h n =
  startswith h n || match h with
                    | EmptyString => false
                    | String _ h' => contains h' n
                    end.
Proof.
  destruct h; reflexivity.
Qed.

Lemma contains_startswith (h n : string) :
  startswith h n = true -> contains h n = true.
Proof.
  intros H. rewrite contains_unfold, H. reflexivity.
Qed.

Lemma contains_cons (ch : ascii) (h n : string) :
  contains h n = true -> contains (String ch h) n = true.
Proof.
  intros H. rewrite contains_unfold, H. apply orb_true_r.
Qed.

Lemma contains_empty (h : string) : contains h EmptyString = true.
Proof.
  apply contains_startswith. destruct h; reflexivity.
Qed.

Lemma contains_nil_l (n : string) :
  n <> EmptyString -> contains EmptyString n = false.
Proof.
  destruct n; [congruence | reflexivity].
Qed.

Lemma contains_app_l (a b n : string) :
  contains a n = true -> contains (a ++ b) n = true.
Proof.
  induction a as [|ch a IH]; intros H.
  - rewrite contains_unfold, orb_false_r in H.
    apply startswith_nil_l in H; subst. apply contains_empty.
  - rewrite contains_unfold in H. apply orb_true_iff in H as [H | H].
    + apply contains_startswith. now apply startswith_app.
    + simpl append. apply contains_cons. auto.
Qed.

Lemma contains_app_r (a b n : string) :
  contains b n = true -> contains (a ++ b) n = true.
Proof.
  intros H. induction a as [|ch a IH]; [exact H | ].
  simpl append. now apply contains_cons.
Qed.

Lemma endswith_unfold (h s : string) :
  endswith h s =
  String.eqb h s || match h with
                    | EmptyString => false
                    | String _ h' => endswith h' s
                    end.
Proof.
  destruct h; reflexivity.
Qed.

Lemma endswith_refl (h : string) : endswith h h = true.
Proof.
  rewrite endswith_unfold, String.eqb_refl. reflexivity.
Qed.

Lemma endswith_cons (ch : ascii) (h s : string) :
  endswith h s = true -> endswith (String ch h) s = true.
Proof.
  intros H. rewrite endswith_unfold, H. apply orb_true_r.
Qed.

(** An occurrence of [n] in [a ++ b] lies in [a], or in [b], or across
    the seam. *)
Lemma contains_split (a b n : string) :
  contains (a ++ b) n = true ->
  contains a n = true \/ contains b n = true \/
  exists n1 n2, n = n1 ++ n2 /\ n1 <> EmptyString /\ n2 <> EmptyString /\
                endswith a n1 = true /\ startswith b n2 = true.
Proof.
  induction a as [|ch a IH]; intros H; [right; left; exact H | ].
  simpl append in H. rewrite contains_unfold in H.
  apply orb_true_iff in H as [H | H].
  - change (String ch (a ++ b)) with (String ch a ++ b) in H.
    apply startswith_split in H as [H | (n2 & -> & Hne & Hb)].
    + left. now apply contains_startswith.
    + right; right. exists (String ch a), n2.
      repeat split; try assumption; [discriminate | apply endswith_refl].
  - destruct (IH H) as [Ha | [Hb | (n1 & n2 & -> & H1 & H2 & He & Hs)]].
    + left. now apply contains_cons.
    + right; left. exact Hb.
    + right; right. exists n1, n2.
      repeat split; try assumption. now apply endswith_cons.
Qed.

Lemma in_proper_prefixes (n1 n2 : string) :
  n1 <> EmptyString -> n2 <> EmptyString -> In n1 (proper_prefixes (n1 ++ n2)).
Proof.
  intros H1 H2. induction n1 as [|ch n1 IH]; [congruence | ].
  simpl. destruct n1 as [|d n1].
  - destruct n2; [congruence | left; reflexivity].
  - right. apply in_map. apply IH. discriminate.
Qed.

Lemma in_proper_suffixes (n1 n2 : string) :
  n1 <> EmptyString -> n2 <> EmptyString -> In n2 (proper_suffixes (n1 ++ n2)).
Proof.
  intros H1 H2. induction n1 as [|ch n1 IH]; [congruence | ].
  simpl. destruct n1 as [|d n1].
  - destruct n2; [congruence | left; reflexivity].
  - right. apply IH. discriminate.
Qed.

Lemma fill_cons2 (v p q : string) (ps : list string) :
  fill v (p :: q :: ps) = p ++ v ++ fill v (q :: ps).
Proof.
  reflexivity.
Qed.

Lemma fill_head (v q : string) (ps : list string) :
  exists r, fill v (q :: ps) = q ++ r.
Proof.
  destruct ps as [|q' ps].
  - exists EmptyString. simpl. induction q as [|ch q IH]; simpl; congruence.
  - eexists. apply fill_cons2.
Qed.

(** No occurrence of [n] in a text with holes, when neither the pieces
    nor the filling hold one and none fits across a seam. *)
Lemma absent_fill (n v : string) (ps : list string) :
  contains v n = false -> clear_of n ps = true -> contains (fill v ps) n = false.
Proof.
  intros Hv. assert (Hn : n <> EmptyString).
  { intros ->. now rewrite contains_empty in Hv. }
  induction ps as [|p ps IH]; intros Hc; [now apply contains_nil_l | ].
  destruct ps as [|q ps].
  - simpl in *. now apply negb_true_iff.
  - rewrite fill_cons2. cbn [clear_of] in Hc.
    repeat (apply andb_true_iff in Hc as [Hc ?]).
    apply negb_true_iff in Hc. rename H into Hrest, H0 into Hq, H1 into Hp.
    apply negb_true_iff in Hq, Hp.
    apply not_true_is_false. intros Hocc.
    apply contains_split in Hocc as [Ha | [Hb | (n1 & n2 & -> & H1 & H2 & He & _)]].
    + congruence.
    + apply contains_split in Hb as [Ha | [Hb | (n1 & n2 & -> & H1 & H2 & _ & Hs)]].
      * congruence.
      * rewrite (IH Hrest) in Hb. discriminate.
      * assert (overlap_start q (n1 ++ n2) = true); [ | congruence].
        apply existsb_exists. exists n2. split; [now apply in_proper_suffixes | ].
        destruct (fill_head v q ps) as [r Hr]. rewrite Hr in Hs.
        apply startswith_split in Hs as [Hs | (m & -> & _ & _)].
        -- rewrite Hs. reflexivity.
        -- rewrite startswith_app_self. apply orb_true_r.
    + assert (overlap_end p (n1 ++ n2) = true); [ | congruence].
      apply existsb_exists. exists n1. split; [now apply in_proper_prefixes | exact He].
Qed.

(** An occurrence of [n] in a piece is one in the filled text. *)
Lemma present_fill (n v : string) (ps : list string) :
  existsb (fun p => contains p n) ps = true -> contains (fill v ps) n = true.
Proof.
  induction ps as [|p ps IH]; intros H; [discriminate | ].
  destruct ps as [|q ps].
  - simpl in *. now rewrite orb_false_r in H.
  - rewrite fill_cons2. cbn [existsb] in H.
    apply orb_true_iff in H as [H | H].
    + now apply contains_app_l.
    + apply contains_app_r, contains_app_r. auto.
Qed.

(** With at least one hole and no occurrence of [n] in or across the
    pieces, [n] occurs in the filled text exactly when it occurs in the
    filling. *)
Lemma contains_fill (n v : string) (ps : list string) :
  clear_of n ps = true -> Nat.leb 2 (List.length ps) = true ->
  contains (fill v ps) n = contains v n.
Proof.
  intros Hc Hl. destruct (contains v n) eqn:Hv.
  - destruct ps as [|p [|q ps]]; try discriminate Hl.
    rewrite fill_cons2. now apply contains_app_r, contains_app_l.
  - now apply absent_fill.
Qed.

(* ================================================================== *)
(** ** Facts about the generator *)
(* ================================================================== *)

(** Splits a configuration into the cases the generator tells apart. *)
Ltac cases c :=
  let nm := fresh "nm" in
  let p := fresh "p" in
  destruct c as [nm p [[ | | ] | ?] [[ | ?] | ?] [ | ]].

(** Equality of two texts built from literals and a variable by [++]:
    both sides are computed with [++] kept, then regrouped. *)
Ltac by_shape :=
  cbv -[append]; cbn [append];
  repeat (progress (rewrite ?append_assoc_r; cbn [append])); reflexivity.

(** Membership of a closed string in a closed list of strings. *)
Ltac in_list := vm_compute; repeat (first [left; reflexivity | right]).

Lemma specific_fill (c : Config) :
  project_specific_endpoints c = Ok (fill (name c) (specific_pieces c)).
Proof.
  cases c; vm_compute; reflexivity.
Qed.

(** The endpoints file is its pieces around the project name.  Where the
    microservice fragment brings the name along, the text is regrouped
    before it is compared. *)
Lemma endpoints_fill (c : Config) :
  _get_endpoints_template c = Ok (fill (name c) (endpoints_pieces c)).
Proof.
  cases c; try (vm_compute; reflexivity); by_shape.
Qed.

Lemma auth_reads_is_async (c c' : Config) :
  is_async c = is_async c' ->
  _get_auth_endpoints_template c = _get_auth_endpoints_template c'.
Proof.
  intros H. unfold _get_auth_endpoints_template, session_import, session_type,
    await_keyword. rewrite H. reflexivity.
Qed.

Lemma auth_total (c : Config) : exists a, _get_auth_endpoints_template c = Ok a.
Proof.
  cases c; eexists; vm_compute; reflexivity.
Qed.

Lemma has_auth_true (c : Config) :
  has_auth c = true <-> auth_type c <> Member NONE.
Proof.
  unfold has_auth, ne_member, eq_member.
  destruct (auth_type c) as [[ | t] | r]; simpl; split; congruence.
Qed.

Lemma has_auth_false (c : Config) :
  has_auth c = false <-> auth_type c = Member NONE.
Proof.
  unfold has_auth, ne_member, eq_member.
  destruct (auth_type c) as [[ | t] | r]; simpl; split; congruence.
Qed.

(** What [generate] hands to the writer, by whether auth is enabled. *)
Lemma generate_auth (c : Config) (w : written) :
  has_auth c = true ->
  exists e a,
    _get_endpoints_template c = Ok e /\
    _get_auth_endpoints_template c = Ok a /\
    generate c w =
      (Ok tt, (w ++ [(endpoints_path c, e); (auth_path c, a);
                     (init_path c, init_template_auth)])%list).
Proof.
  intros H. destruct (auth_total c) as [a Ha].
  exists (fill (name c) (endpoints_pieces c)), a.
  split; [apply endpoints_fill | split; [exact Ha | ]].
  unfold generate, seq, lift, write_file, _get_init_template.
  rewrite endpoints_fill, H, Ha, <- !app_assoc. reflexivity.
Qed.

Lemma generate_plain (c : Config) (w : written) :
  has_auth c = false ->
  exists e,
    _get_endpoints_template c = Ok e /\
    generate c w =
      (Ok tt, (w ++ [(endpoints_path c, e); (init_path c, init_template_plain)])%list).
Proof.
  intros H. exists (fill (name c) (endpoints_pieces c)).
  split; [apply endpoints_fill | ].
  unfold generate, seq, lift, write_file, ret, _get_init_template.
  rewrite endpoints_fill, H, <- !app_assoc. reflexivity.
Qed.

Lemma generate_appends (c : Config) :
  exists files, forall w, generate c w = (Ok tt, (w ++ files)%list).
Proof.
  destruct (has_auth c) eqn:H.
  - destruct (generate_auth c [] H) as (e & a & He & Ha & _).
    eexists. intros w.
    destruct (generate_auth c w H) as (e' & a' & He' & Ha' & Hg).
    rewrite He in He'; rewrite Ha in Ha'.
    injection He' as <-; injection Ha' as <-. exact Hg.
  - destruct (generate_plain c [] H) as (e & He & _).
    eexists. intros w.
    destruct (generate_plain c w H) as (e' & He' & Hg).
    rewrite He in He'. injection He' as <-. exact Hg.
Qed.

(** The three output paths differ, whatever the output root. *)
Lemma paths_differ (c : Config) :
  auth_path c <> endpoints_path c /\ auth_path c <> init_path c /\
  endpoints_path c <> init_path c.
Proof.
  unfold auth_path, endpoints_path, init_path.
  repeat split; intros H; apply append_inj_l in H; discriminate.
Qed.

(** The endpoints file in an environment is that of the pure generator
    once [project_name] is the configured name. *)
Lemma endpoints_in_environment {World : Type}
    (template_vars : Config -> World -> dict) (c : Config) (w : World) :
  get (template_vars c w) "project_name" = Some (VStr (name c)) ->
  _get_endpoints_template_in template_vars c w = _get_endpoints_template c.
Proof.
  intros H. unfold _get_endpoints_template_in, _get_endpoints_template, subscript.
  rewrite H. reflexivity.
Qed.

(* ================================================================== *)
(** ** Facts about the emitted handlers *)
(* ================================================================== *)

(** The auth file holds both handlers whole, as [print_handler] writes
    them, and the imports their names come from. *)
Lemma auth_file_holds_handlers (c : Config) (a : string) :
  _get_auth_endpoints_template c = Ok a ->
  contains a (AuthModule.print_handler (AuthModule.register_of c)) = true /\
  contains a (AuthModule.print_handler (AuthModule.login_of c)) = true /\
  all_in a AuthModule.header_imports = true.
Proof.
  intros Ha.
  cases c; vm_compute in Ha; injection Ha as <-; repeat split; vm_compute; reflexivity.
Qed.

(** Runs the left side of an equation up to its next call into the
    security layer, and no further: the continuation stays as it is. *)
Ltac expose t k :=
  let t' := eval hnf in t in
  lazymatch t' with
  | match ?x with _ => _ end =>
    expose x ltac:(fun x' =>
      lazymatch t' with
      | context C [x] => let t'' := context C [x'] in k t''
      end)
  | _ => k t'
  end.

Ltac head_step :=
  match goal with
  | |- ?l = ?r => expose l ltac:(fun l' => change (l' = r))
  end.

(** What a registration request does, in the terms of the security
    layer. *)
Lemma register_runs {DB User : Type} (sec : AuthModule.Security DB User)
    (session : string) (awaited : bool) (d : AuthModule.Credentials) (db : DB) :
  AuthModule.register sec (AuthModule.register_user session awaited) d db =
  match AuthModule.get_user_by_email sec db (AuthModule.email d) with
  | (Some _, db') =>
    (AuthModule.Raised
       (AuthModule.mkHTTPException 400 "Email already registered" []), db')
  | (None, db') =>
    let (u, db'') :=
      AuthModule.create_user sec db' (AuthModule.email d) (AuthModule.password d) in
    (AuthModule.Returned (AuthModule.VUser u), db'')
  end.
Proof.
  destruct sec as [au gu cu ct ue mins].
  cbn [AuthModule.get_user_by_email AuthModule.create_user].
  destruct awaited; head_step;
    destruct (gu db (AuthModule.email d)) as [[u | ] db'];
    head_step; try reflexivity;
    destruct (cu db' (AuthModule.email d) (AuthModule.password d));
    head_step; reflexivity.
Qed.

(** What a login request does, in the terms of the security layer. *)
Lemma login_runs {DB User : Type} (sec : AuthModule.Security DB User)
    (session : string) (awaited : bool) (d : AuthModule.Credentials) (db : DB) :
  AuthModule.login sec (AuthModule.login_for_access_token session awaited) d db =
  match AuthModule.authenticate_user sec db (AuthModule.email d) (AuthModule.password d) with
  | (None, db') =>
    (AuthModule.Raised
       (AuthModule.mkHTTPException 401 "Incorrect email or password"
          [("WWW-Authenticate", "Bearer")]), db')
  | (Some u, db') =>
    match AuthModule.timedelta_minutes (AuthModule.ACCESS_TOKEN_EXPIRE_MINUTES sec) with
    | Some minutes =>
      (AuthModule.Returned
         (AuthModule.VDict
            [("access_token",
              AuthModule.VStr
                (AuthModule.create_access_token sec
                   [("sub", AuthModule.user_email sec u)] minutes));
             ("token_type", AuthModule.VStr "bearer")]), db')
    | None => (AuthModule.Uncaught AuthModule.OverflowError, db')
    end
  end.
Proof.
  destruct sec as [au gu cu ct ue mins].
  cbn [AuthModule.authenticate_user AuthModule.ACCESS_TOKEN_EXPIRE_MINUTES
       AuthModule.create_access_token AuthModule.user_email].
  destruct awaited; head_step;
    destruct (au db (AuthModule.email d) (AuthModule.password d)) as [[u | ] db'];
    head_step; try reflexivity;
    change (AuthModule.ACCESS_TOKEN_EXPIRE_MINUTES _) with mins;
    destruct (AuthModule.timedelta_minutes mins);
    head_step; reflexivity.
Qed.

(* ================================================================== *)
(** ** The properties of the specification *)
(* ================================================================== *)

(** C1 (determinism).  For every configuration there is one set of
    (path, content) pairs that every call of [generate] hands to the
    writer, whatever the environment of the call and whatever was written
    before: the only thing the generator takes from its collaborator
    [get_template_vars] is [project_name], so as long as that is the
    configured name, no time, random value or other environment value the
    collaborator may hold reaches a path or a content. *)
Theorem generate_deterministic (c : Config) :
  exists files,
    forall (World : Type) (template_vars : Config -> World -> dict),
      (forall w, get (template_vars c w) "project_name" = Some (VStr (name c))) ->
      forall (w1 w2 : World) (s1 s2 : written),
        generate_in template_vars c w1 s1 = (Ok tt, (s1 ++ files)%list) /\
        generate_in template_vars c w2 s2 = (Ok tt, (s2 ++ files)%list).
Proof.
  destruct (generate_appends c) as [files H].
  exists files. intros World template_vars Hname w1 w2 s1 s2.
  assert (Hg : forall w s, generate_in template_vars c w s = generate c s).
  { intros w s. unfold generate_in, generate.
    now rewrite (endpoints_in_environment template_vars c w (Hname w)). }
  rewrite !Hg. split; apply H.
Qed.

Lemma generate_deterministic_witness :
  exists files,
    generate_in stamped_vars Samples.micro_auth_sync
      (mkWorld "2024-01-01T00:00:00" "4f2a") [] = (Ok tt, files) /\
    generate_in stamped_vars Samples.micro_auth_sync
      (mkWorld "2031-07-15T12:30:00" "c09e") [] = (Ok tt, files).
Proof.
  destruct (generate_deterministic Samples.micro_auth_sync) as [files H].
  exists files.
  exact (H world stamped_vars (fun w => eq_refl)
           (mkWorld "2024-01-01T00:00:00" "4f2a")
           (mkWorld "2031-07-15T12:30:00" "c09e") [] []).
Defined.

(** The environment does reach the output through [project_name]: with a
    collaborator that takes the name from the environment, two calls
    with one configuration greet with different names. *)
Lemma environment_shows_through_project_name :
  existsb (fun f => contains (snd f) "Welcome to alpha API")
    (snd (generate_in ambient_vars Samples.ml_plain_sync (mkWorld "t" "alpha") []))
  = true /\
  existsb (fun f => contains (snd f) "Welcome to alpha API")
    (snd (generate_in ambient_vars Samples.ml_plain_sync (mkWorld "t" "beta") []))
  = false.
Proof.
  split; vm_compute; reflexivity.
Qed.

(** C2, as stated, fails: with auth disabled the endpoints file still
    greets with the project name, so a name that holds [/auth] puts that
    text in the output. *)
Lemma auth_text_from_project_name :
  auth_type Samples.named_auth = Member NONE /\
  exists e,
    In (endpoints_path Samples.named_auth, e) (snd (generate Samples.named_auth [])) /\
    contains e "/auth" = true.
Proof.
  split; [reflexivity | ].
  destruct (generate_plain Samples.named_auth [] eq_refl) as (e & He & Hg).
  exists e. rewrite Hg. split; [left; reflexivity | ].
  vm_compute in He. injection He as <-. vm_compute. reflexivity.
Qed.

(** C2 (auth gating), amended.  With [auth_type == NONE], [generate]
    writes exactly the endpoints file and the index file, the auth path
    is not among the paths written, the index file is the docstring and
    the single line that re-exports the endpoints router (no router is
    built or included), the text [/auth] does not occur in the index
    file, and it occurs in the endpoints file exactly when the project
    name holds it. *)
Theorem auth_disabled_output (c : Config) :
  auth_type c = Member NONE ->
  exists e i,
    generate c [] = (Ok tt, [(endpoints_path c, e); (init_path c, i)]) /\
    ~ In (auth_path c) [endpoints_path c; init_path c] /\
    lines i = [py "```"; "API v1 Router"; py "```"; EmptyString;
               "from .endpoints import router"; EmptyString] /\
    contains i "/auth" = false /\
    contains e "/auth" = contains (name c) "/auth".
Proof.
  intros Hauth. apply has_auth_false in Hauth.
  destruct (generate_plain c [] Hauth) as (e & He & Hg).
  exists e, init_template_plain. split; [exact Hg | ].
  split.
  { destruct (paths_differ c) as (H1 & H2 & _). simpl. intuition congruence. }
  split; [vm_compute; reflexivity | ].
  split; [vm_compute; reflexivity | ].
  rewrite endpoints_fill in He. injection He as <-.
  apply contains_fill; cases c; try discriminate Hauth; vm_compute; reflexivity.
Qed.

Lemma auth_disabled_output_witness :
  auth_type Samples.ml_plain_async = Member NONE /\
  exists e i,
    generate Samples.ml_plain_async [] =
      (Ok tt, [(endpoints_path Samples.ml_plain_async, e);
               (init_path Samples.ml_plain_async, i)]) /\
    contains e "/auth" = false /\
    contains i "/auth" = false.
Proof.
  split; [reflexivity | ].
  destruct (auth_disabled_output Samples.ml_plain_async eq_refl)
    as (e & i & Hg & _ & _ & Hi & He).
  exists e, i. repeat split; assumption.
Defined.

(** C3 (auth gating, inverse).  With [auth_type != NONE], [generate]
    writes the endpoints, auth and index files, so the auth path is among
    the paths written, and a line of the index file includes the auth
    router under the prefix [/auth] with the tag [authentication]. *)
Theorem auth_enabled_output (c : Config) :
  auth_type c <> Member NONE ->
  exists e a i,
    generate c [] =
      (Ok tt, [(endpoints_path c, e); (auth_path c, a); (init_path c, i)]) /\
    In (auth_path c) (map fst (snd (generate c []))) /\
    In (py "router.include_router(auth_router, prefix=`/auth`, tags=[`authentication`])")
       (lines i).
Proof.
  intros Hauth. apply has_auth_true in Hauth.
  destruct (generate_auth c [] Hauth) as (e & a & He & Ha & Hg).
  exists e, a, init_template_auth. split; [exact Hg | ].
  split; [rewrite Hg; simpl; auto | in_list].
Qed.

Lemma auth_enabled_output_witness :
  auth_type Samples.generic_auth_async <> Member NONE /\
  In (auth_path Samples.generic_auth_async)
     (map fst (snd (generate Samples.generic_auth_async []))).
Proof.
  assert (H : auth_type Samples.generic_auth_async <> Member NONE) by discriminate.
  split; [exact H | ].
  destruct (auth_enabled_output Samples.generic_auth_async H) as (e & a & i & _ & Hin & _).
  exact Hin.
Defined.

(** C4, as stated, fails: the index file imports nothing from the
    database layer, so no token of either idiom appears in it; the word
    [await] alone is no mark of the async idiom, since the ML endpoints
    await their prediction service in a sync project too; and the
    endpoints file repeats the project name, so a name that holds a
    token of the other idiom puts both idioms in one file. *)
Lemma index_file_has_no_idiom :
  (exists i,
     In (init_path Samples.micro_auth_sync, i) (snd (generate Samples.micro_auth_sync [])) /\
     appears sync_idiom i = false /\ appears async_idiom i = false /\
     contains i "Session" = false /\ contains i "await" = false) /\
  (is_async Samples.ml_plain_sync = false /\
   exists e,
     In (endpoints_path Samples.ml_plain_sync, e) (snd (generate Samples.ml_plain_sync [])) /\
     contains e sync_import = true /\
     contains e "result = await make_prediction(input_data)" = true) /\
  (is_async Samples.named_async_import = false /\
   exists e,
     In (endpoints_path Samples.named_async_import, e)
        (snd (generate Samples.named_async_import [])) /\
     appears sync_idiom e = true /\ appears async_idiom e = true).
Proof.
  split; [ | split].
  - destruct (generate_auth Samples.micro_auth_sync [] eq_refl) as (e & a & _ & _ & Hg).
    exists init_template_auth. rewrite Hg.
    split; [simpl; auto | repeat split; vm_compute; reflexivity].
  - split; [reflexivity | ].
    destruct (generate_plain Samples.ml_plain_sync [] eq_refl) as (e & He & Hg).
    exists e. rewrite Hg. split; [left; reflexivity | ].
    vm_compute in He. injection He as <-. split; vm_compute; reflexivity.
  - split; [reflexivity | ].
    destruct (generate_plain Samples.named_async_import [] eq_refl) as (e & He & Hg).
    exists e. rewrite Hg. split; [left; reflexivity | ].
    vm_compute in He. injection He as <-. split; vm_compute; reflexivity.
Qed.

(** C4 (sync/async exclusivity), amended.  In every generated file but
    the index file exactly one of the two idioms appears, the one
    [is_async] selects; the index file holds no token of either.  The
    auth file, when it is generated, holds every token of the selected
    idiom (its import, its [db] parameter type and the three data-access
    calls, bare or awaited) and no token of the other; in it
    [AsyncSession] and the word [await] occur exactly when [is_async]
    holds.  The endpoints file holds the selected import, and a token of
    the other idiom occurs in it exactly when the project name, which it
    repeats, holds that token. *)
Theorem idiom_exclusive (c : Config) :
  exists e i,
    In (endpoints_path c, e) (snd (generate c [])) /\
    In (init_path c, i) (snd (generate c [])) /\
    appears sync_idiom i = false /\
    appears async_idiom i = false /\
    appears (idiom (is_async c)) e = true /\
    contains e (db_import (is_async c)) = true /\
    (forall t, In t (idiom (negb (is_async c))) ->
               contains e t = contains (name c) t) /\
    (auth_type c <> Member NONE ->
     exists a,
       In (auth_path c, a) (snd (generate c [])) /\
       all_in a (idiom (is_async c)) = true /\
       none_in a (idiom (negb (is_async c))) = true /\
       contains a "AsyncSession" = is_async c /\
       contains a "await" = is_async c).
Proof.
  assert (He1 : contains (fill (name c) (endpoints_pieces c)) (db_import (is_async c))
                = true).
  { apply present_fill. cases c; vm_compute; reflexivity. }
  assert (He0 : appears (idiom (is_async c)) (fill (name c) (endpoints_pieces c)) = true).
  { unfold appears. apply existsb_exists. exists (db_import (is_async c)).
    split; [destruct (is_async c); left; reflexivity | exact He1]. }
  assert (He2 : forall t, In t (idiom (negb (is_async c))) ->
                contains (fill (name c) (endpoints_pieces c)) t = contains (name c) t).
  { intros t Ht. apply contains_fill.
    - cases c; vm_compute in Ht;
        repeat (destruct Ht as [<- | Ht]; [vm_compute; reflexivity | ]);
        destruct Ht.
    - cases c; vm_compute; reflexivity. }
  destruct (has_auth c) eqn:Hauth.
  - destruct (generate_auth c [] Hauth) as (e & a & He & Hat & Hg).
    rewrite endpoints_fill in He. injection He as <-.
    eexists _, init_template_auth. rewrite Hg.
    split; [simpl; auto | ]. split; [simpl; auto | ].
    split; [vm_compute; reflexivity | ]. split; [vm_compute; reflexivity | ].
    split; [exact He0 | ]. split; [exact He1 | ]. split; [exact He2 | ].
    intros _. exists a. split; [simpl; auto | ].
    clear He0 He1 He2 Hg Hauth.
    cases c; vm_compute in Hat; injection Hat as <-;
      repeat split; vm_compute; reflexivity.
  - destruct (generate_plain c [] Hauth) as (e & He & Hg).
    rewrite endpoints_fill in He. injection He as <-.
    eexists _, init_template_plain. rewrite Hg.
    split; [simpl; auto | ]. split; [simpl; auto | ].
    split; [vm_compute; reflexivity | ]. split; [vm_compute; reflexivity | ].
    split; [exact He0 | ]. split; [exact He1 | ]. split; [exact He2 | ].
    intros H. apply has_auth_true in H. congruence.
Qed.

Lemma idiom_exclusive_witness :
  exists e a,
    In (endpoints_path Samples.generic_auth_async, e)
       (snd (generate Samples.generic_auth_async [])) /\
    In (auth_path Samples.generic_auth_async, a)
       (snd (generate Samples.generic_auth_async [])) /\
    appears async_idiom e = true /\ appears sync_idiom e = false /\
    all_in a async_idiom = true /\ none_in a sync_idiom = true.
Proof.
  destruct (idiom_exclusive Samples.generic_auth_async)
    as (e & i & He & _ & _ & _ & Hes & _ & Hen & Hauth).
  destruct Hauth as (a & Ha & Has & Han & _); [discriminate | ].
  exists e, a. split; [exact He | split; [exact Ha | ]].
  split; [exact Hes | split; [ | split; [exact Has | exact Han]]].
  unfold appears. apply not_true_is_false. intros H.
  apply existsb_exists in H as (t & Ht & Hc).
  rewrite (Hen t Ht) in Hc. vm_compute in Ht.
  repeat (destruct Ht as [<- | Ht]; [vm_compute in Hc; discriminate Hc | ]).
  destruct Ht.
Defined.

(** C5, as stated, fails: the microservice fragment repeats the project
    name, so a name that holds route decorators on lines of their own
    gives the fragment a prediction and a model-info route. *)
Lemma routes_from_project_name :
  project_type Samples.named_routes = Member MICROSERVICE /\
  exists f,
    project_specific_endpoints Samples.named_routes = Ok f /\
    In ("post", "/predict") (routes f) /\
    In ("get", "/model/info") (routes f) /\
    contains f (decorator "post" "/predict") = true /\
    contains f (decorator "get" "/model/info") = true.
Proof.
  split; [reflexivity | ].
  eexists. split; [vm_compute; reflexivity | ].
  split; [in_list | split; [in_list | split; vm_compute; reflexivity]].
Qed.

(** C5 (project-type dispatch), amended.  [ML_API] yields a fragment
    whose routes are exactly the prediction and the model-info route,
    with no status or process decorator in it.  [MICROSERVICE] yields a
    fragment that holds the status and the process route, each starting
    a line, and holds a prediction or model-info decorator exactly when
    the project name does.  Any other value, a member or not, yields the
    empty fragment and no error.  In each case the endpoints file is the
    file of the same configuration with project type [GENERIC], with the
    fragment put before its final newline. *)
Theorem project_type_dispatch (c : Config) :
  (project_type c = Member ML_API ->
   exists f,
     project_specific_endpoints c = Ok f /\
     routes f = [("post", "/predict"); ("get", "/model/info")] /\
     none_in f [decorator "get" "/status"; decorator "post" "/process"] = true) /\
  (project_type c = Member MICROSERVICE ->
   exists f,
     project_specific_endpoints c = Ok f /\
     contains f (String nl (decorator "get" "/status")) = true /\
     contains f (String nl (decorator "post" "/process")) = true /\
     forall d,
       In d [decorator "post" "/predict"; decorator "get" "/model/info"] ->
       contains f d = contains (name c) d) /\
  (project_type c <> Member ML_API ->
   project_type c <> Member MICROSERVICE ->
   project_specific_endpoints c = Ok EmptyString) /\
  (exists base f,
     _get_endpoints_template (with_project_type (Member GENERIC) c)
       = Ok (base ++ String nl EmptyString) /\
     project_specific_endpoints c = Ok f /\
     _get_endpoints_template c = Ok (base ++ f ++ String nl EmptyString)).
Proof.
  split; [ | split; [ | split]].
  - intros H. exists (fill (name c) (specific_pieces c)).
    split; [apply specific_fill | ].
    split; cases c; try discriminate H; vm_compute; reflexivity.
  - intros H. exists (fill (name c) (specific_pieces c)).
    split; [apply specific_fill | ].
    split; [ | split].
    + apply present_fill. cases c; try discriminate H; vm_compute; reflexivity.
    + apply present_fill. cases c; try discriminate H; vm_compute; reflexivity.
    + intros d Hd.
      destruct Hd as [<- | [<- | []]];
        apply contains_fill; cases c; try discriminate H; vm_compute; reflexivity.
  - intros Hml Hmicro. unfold project_specific_endpoints, eq_member.
    destruct (project_type c) as [[ | | ] | r]; simpl; congruence.
  - exists (fill (name c) (frame_pieces c)), (fill (name c) (specific_pieces c)).
    split; [ | split; [apply specific_fill | ]].
    + rewrite endpoints_fill. f_equal. cases c; by_shape.
    + rewrite endpoints_fill. f_equal. cases c; by_shape.
Qed.

Lemma project_type_dispatch_witness :
  (exists f,
     project_specific_endpoints Samples.ml_plain_async = Ok f /\
     routes f = [("post", "/predict"); ("get", "/model/info")]) /\
  (exists f,
     project_specific_endpoints Samples.micro_auth_sync = Ok f /\
     contains f (String nl (decorator "get" "/status")) = true /\
     contains f (decorator "post" "/predict") = false) /\
  project_specific_endpoints Samples.generic_auth_async = Ok EmptyString.
Proof.
  split; [ | split].
  - destruct (project_type_dispatch Samples.ml_plain_async) as (H & _).
    destruct (H eq_refl) as (f & Hf & Hr & _).
    exists f. split; assumption.
  - destruct (project_type_dispatch Samples.micro_auth_sync) as (_ & H & _).
    destruct (H eq_refl) as (f & Hf & Hs & _ & Hd).
    exists f. split; [exact Hf | split; [exact Hs | ]].
    rewrite Hd; [reflexivity | left; reflexivity].
  - destruct (project_type_dispatch Samples.generic_auth_async) as (_ & _ & H & _).
    apply H; discriminate.
Defined.

(** C6, as stated, fails: the generator has no check of its enum fields.
    With an object that is no member in both of them, [generate] raises
    nothing and hands all three files to the writer. *)
Lemma foreign_values_are_accepted :
  in_domain (project_type Samples.foreign) = false /\
  in_domain (auth_type Samples.foreign) = false /\
  fst (generate Samples.foreign []) = Ok tt /\
  map fst (snd (generate Samples.foreign [])) =
    ["out/app/api/v1/endpoints.py"; "out/app/api/v1/auth.py";
     "out/app/api/v1/__init__.py"].
Proof.
  repeat split; vm_compute; reflexivity.
Qed.

(** C6 (failure semantics), amended.  [generate] has no failure of its
    own: for every configuration, whatever its enum fields hold, it
    raises nothing and hands its whole file set to the writer, three
    files with auth and two without.  An [auth_type] that is no member of
    the enum differs from [NONE], so it enables auth; a [project_type]
    that is no member selects the empty fragment. *)
Theorem generate_never_raises (c : Config) (w : written) :
  (exists files,
     generate c w = (Ok tt, (w ++ files)%list) /\
     List.length files = if has_auth c then 3 else 2) /\
  (in_domain (auth_type c) = false -> has_auth c = true) /\
  (in_domain (project_type c) = false ->
   project_specific_endpoints c = Ok EmptyString).
Proof.
  split; [ | split].
  - destruct (has_auth c) eqn:H.
    + destruct (generate_auth c w H) as (e & a & _ & _ & Hg).
      eexists. split; [exact Hg | reflexivity].
    + destruct (generate_plain c w H) as (e & _ & Hg).
      eexists. split; [exact Hg | reflexivity].
  - unfold has_auth, ne_member, eq_member.
    destruct (auth_type c); simpl; [discriminate | reflexivity].
  - unfold project_specific_endpoints, eq_member.
    destruct (project_type c); simpl; [discriminate | reflexivity].
Qed.

Lemma generate_never_raises_witness :
  (exists files,
     generate Samples.foreign [] = (Ok tt, files) /\ List.length files = 3) /\
  project_specific_endpoints Samples.foreign = Ok EmptyString.
Proof.
  destruct (generate_never_raises Samples.foreign []) as ((files & Hg & Hl) & _ & Hp).
  split; [exists files; split; assumption | ].
  apply Hp. reflexivity.
Defined.

(** C7 (scenario).  For a microservice with auth enabled and sync
    database access, [generate] writes exactly three files; the routes of
    the auth file are exactly POST [/token], POST [/register], GET [/me]
    and PUT [/me]; the auth file imports and uses the sync session, calls
    the data layer without [await], and holds no async import, session
    type or [await]; a line of the index file includes the auth router
    under [/auth] with the tag [authentication]. *)
Theorem microservice_auth_sync_scenario (c : Config) :
  project_type c = Member MICROSERVICE ->
  auth_type c <> Member NONE ->
  is_async c = false ->
  exists e a i,
    generate c [] =
      (Ok tt, [(endpoints_path c, e); (auth_path c, a); (init_path c, i)]) /\
    routes a = [("post", "/token"); ("post", "/register"); ("get", "/me"); ("put", "/me")] /\
    all_in a (sync_import :: "db: Session = Depends(get_db)"
                :: map (call_stmt EmptyString) data_access_calls) = true /\
    none_in a [async_import; "asyncio"; "AsyncSession"; "await"] = true /\
    In (py "router.include_router(auth_router, prefix=`/auth`, tags=[`authentication`])")
       (lines i).
Proof.
  intros Hpt Hauth Hasync. apply has_auth_true in Hauth.
  destruct (generate_auth c [] Hauth) as (e & a & He & Ha & Hg).
  exists e, a, init_template_auth. split; [exact Hg | ].
  clear He Hg Hauth Hpt.
  split; [ | split; [ | split; [ | in_list]]];
    cases c; try discriminate Hasync; vm_compute in Ha; injection Ha as <-;
    vm_compute; reflexivity.
Qed.

Lemma microservice_auth_sync_scenario_witness :
  project_type Samples.micro_auth_sync = Member MICROSERVICE /\
  auth_type Samples.micro_auth_sync <> Member NONE /\
  is_async Samples.micro_auth_sync = false /\
  exists a,
    In (auth_path Samples.micro_auth_sync, a) (snd (generate Samples.micro_auth_sync [])) /\
    routes a = [("post", "/token"); ("post", "/register"); ("get", "/me"); ("put", "/me")].
Proof.
  assert (H : auth_type Samples.micro_auth_sync <> Member NONE) by discriminate.
  split; [reflexivity | split; [exact H | split; [reflexivity | ]]].
  destruct (microservice_auth_sync_scenario Samples.micro_auth_sync eq_refl H eq_refl)
    as (e & a & i & Hg & Hr & _).
  exists a. rewrite Hg. split; [simpl; auto | exact Hr].
Defined.

(** C8, as stated, fails in one part: the login handler builds a
    [timedelta] from the configured expiry before it makes the token, so
    with an expiry beyond the range of [timedelta] a login with valid
    credentials ends in an [OverflowError] and issues no token. *)
Lemma login_overflows_on_large_expiry :
  (exists a,
     In (auth_path Samples.generic_auth_async, a)
        (snd (generate Samples.generic_auth_async [])) /\
     contains a (AuthModule.print_handler (AuthModule.login_of Samples.generic_auth_async))
     = true) /\
  AuthModule.authenticate_user MemoryStore.security_forever
    [("alice@example.org", "s3cret")] "alice@example.org" "s3cret"
  = (Some "alice@example.org", [("alice@example.org", "s3cret")]) /\
  AuthModule.login MemoryStore.security_forever
    (AuthModule.login_of Samples.generic_auth_async) MemoryStore.alice
    [("alice@example.org", "s3cret")]
  = (AuthModule.Uncaught AuthModule.OverflowError, [("alice@example.org", "s3cret")]).
Proof.
  split; [ | split; vm_compute; reflexivity].
  destruct (generate_auth Samples.generic_auth_async [] eq_refl) as (e & a & _ & Ha & Hg).
  exists a. rewrite Hg. split; [simpl; auto | ].
  apply (auth_file_holds_handlers _ _ Ha).
Qed.

(** C8 (auth handlers), amended.  With [auth_type != NONE] the auth file
    holds the registration and the login handler, each whole from its
    route decorator on, and the imports their names come from.  Run on a
    request, the registration handler raises HTTP 400 "Email already
    registered" when the lookup by email finds a user, and otherwise
    creates the user and returns it; the login handler raises HTTP 401
    "Incorrect email or password" when the credentials do not
    authenticate, and otherwise returns a bearer token made for the
    user's email, provided the configured expiry is one a [timedelta]
    holds: beyond that it ends in an [OverflowError]. *)
Theorem auth_handlers (c : Config) :
  auth_type c <> Member NONE ->
  exists a,
    In (auth_path c, a) (snd (generate c [])) /\
    contains a (AuthModule.print_handler (AuthModule.register_of c)) = true /\
    contains a (AuthModule.print_handler (AuthModule.login_of c)) = true /\
    all_in a AuthModule.header_imports = true /\
    forall (DB User : Type) (sec : AuthModule.Security DB User)
           (d : AuthModule.Credentials) (db db' : DB),
      (forall u,
         AuthModule.get_user_by_email sec db (AuthModule.email d) = (Some u, db') ->
         AuthModule.register sec (AuthModule.register_of c) d db =
           (AuthModule.Raised
              (AuthModule.mkHTTPException 400 "Email already registered" []), db')) /\
      (AuthModule.get_user_by_email sec db (AuthModule.email d) = (None, db') ->
       AuthModule.register sec (AuthModule.register_of c) d db =
         (AuthModule.Returned
            (AuthModule.VUser
               (fst (AuthModule.create_user sec db' (AuthModule.email d)
                       (AuthModule.password d)))),
          snd (AuthModule.create_user sec db' (AuthModule.email d)
                 (AuthModule.password d)))) /\
      (AuthModule.authenticate_user sec db (AuthModule.email d) (AuthModule.password d)
         = (None, db') ->
       AuthModule.login sec (AuthModule.login_of c) d db =
         (AuthModule.Raised
            (AuthModule.mkHTTPException 401 "Incorrect email or password"
               [("WWW-Authenticate", "Bearer")]), db')) /\
      (forall u,
         AuthModule.authenticate_user sec db (AuthModule.email d) (AuthModule.password d)
           = (Some u, db') ->
         AuthModule.login sec (AuthModule.login_of c) d db =
           match AuthModule.timedelta_minutes (AuthModule.ACCESS_TOKEN_EXPIRE_MINUTES sec) with
           | Some minutes =>
             (AuthModule.Returned
                (AuthModule.VDict
                   [("access_token",
                     AuthModule.VStr
                       (AuthModule.create_access_token sec
                          [("sub", AuthModule.user_email sec u)] minutes));
                    ("token_type", AuthModule.VStr "bearer")]), db')
           | None => (AuthModule.Uncaught AuthModule.OverflowError, db')
           end).
Proof.
  intros Hauth. apply has_auth_true in Hauth.
  destruct (generate_auth c [] Hauth) as (e & a & _ & Ha & Hg).
  exists a. rewrite Hg. split; [simpl; auto | ].
  destruct (auth_file_holds_handlers c a Ha) as (Hr & Hl & Hi).
  split; [exact Hr | split; [exact Hl | split; [exact Hi | ]]].
  intros DB User sec d db db'.
  unfold AuthModule.register_of, AuthModule.login_of.
  rewrite register_runs, login_runs.
  repeat split.
  - intros u H. rewrite H. reflexivity.
  - intros H. rewrite H.
    destruct (AuthModule.create_user sec db' (AuthModule.email d) (AuthModule.password d)).
    reflexivity.
  - intros H. rewrite H. reflexivity.
  - intros u H. rewrite H. reflexivity.
Qed.

Lemma auth_handlers_witness :
  auth_type Samples.generic_auth_async <> Member NONE /\
  (exists a,
     In (auth_path Samples.generic_auth_async, a)
        (snd (generate Samples.generic_auth_async [])) /\
     contains a (AuthModule.print_handler (AuthModule.login_of Samples.generic_auth_async))
     = true) /\
  AuthModule.login MemoryStore.security
    (AuthModule.login_of Samples.generic_auth_async) MemoryStore.alice
    [("alice@example.org", "s3cret")]
  = (AuthModule.Returned
       (AuthModule.VDict
          [("access_token", AuthModule.VStr "token for alice@example.org");
           ("token_type", AuthModule.VStr "bearer")]),
     [("alice@example.org", "s3cret")]).
Proof.
  assert (H : auth_type Samples.generic_auth_async <> Member NONE) by discriminate.
  split; [exact H | ].
  destruct (auth_handlers Samples.generic_auth_async H) as (a & Hin & _ & Hl & _ & Hrun).
  split; [exists a; split; assumption | ].
  destruct (Hrun MemoryStore.DB string MemoryStore.security MemoryStore.alice
              [("alice@example.org", "s3cret")] [("alice@example.org", "s3cret")])
    as (_ & _ & _ & Hlogin).
  exact (Hlogin "alice@example.org" eq_refl).
Defined.

(** C9, as stated, fails in one part: the endpoints file repeats the
    project name, so with auth disabled a name that holds the security
    import on a line of its own puts that line in the file. *)
Lemma security_import_from_project_name :
  auth_type Samples.named_import = Member NONE /\
  exists e,
    In (endpoints_path Samples.named_import, e) (snd (generate Samples.named_import [])) /\
    In "from app.core.security import get_current_user" (lines e).
Proof.
  split; [reflexivity | ].
  destruct (generate_plain Samples.named_import [] eq_refl) as (e & He & Hg).
  exists e. rewrite Hg. split; [left; reflexivity | ].
  vm_compute in He. injection He as <-. in_list.
Qed.

(** C9 (auth names without auth), amended.  With [auth_type == NONE]
    the generator adds no security import ([auth_imports] is empty):
    the import occurs in the endpoints file exactly when the project
    name holds it.  Yet the file always imports [User] from [app.models.auth], and for
    [ML_API] and [MICROSERVICE] it names [get_current_user], in the
    default [Depends(get_current_user) if False else None]. *)
Theorem endpoints_name_auth_without_import (c : Config) :
  auth_type c = Member NONE ->
  exists e,
    In (endpoints_path c, e) (snd (generate c [])) /\
    auth_imports c = EmptyString /\
    contains e "from app.core.security import get_current_user"
      = contains (name c) "from app.core.security import get_current_user" /\
    contains e "from app.models.auth import User" = true /\
    (project_type c = Member ML_API \/ project_type c = Member MICROSERVICE ->
     contains e "get_current_user" = true /\
     contains e "Depends(get_current_user) if False else None" = true).
Proof.
  intros Hauth.
  assert (Himp : auth_imports c = EmptyString).
  { unfold auth_imports, has_auth, ne_member, eq_member. now rewrite Hauth. }
  apply has_auth_false in Hauth.
  destruct (generate_plain c [] Hauth) as (e & He & Hg).
  rewrite endpoints_fill in He. injection He as <-.
  eexists. rewrite Hg. split; [left; reflexivity | ].
  split; [exact Himp | ]. clear Hg Himp.
  split; [ | split].
  - apply contains_fill; cases c; try discriminate Hauth; vm_compute; reflexivity.
  - apply present_fill. cases c; vm_compute; reflexivity.
  - intros Hpt. split; apply present_fill;
      cases c; try discriminate Hauth;
      try (destruct Hpt as [Hpt | Hpt]; discriminate Hpt);
      vm_compute; reflexivity.
Qed.

Lemma endpoints_name_auth_without_import_witness :
  auth_type Samples.ml_plain_async = Member NONE /\
  exists e,
    In (endpoints_path Samples.ml_plain_async, e) (snd (generate Samples.ml_plain_async [])) /\
    contains e "from app.core.security import get_current_user" = false /\
    contains e "Depends(get_current_user) if False else None" = true.
Proof.
  split; [reflexivity | ].
  destruct (endpoints_name_auth_without_import Samples.ml_plain_async eq_refl)
    as (e & Hin & _ & Habs & _ & Hdep).
  exists e. split; [exact Hin | ].
  split; [exact Habs | apply Hdep; left; reflexivity].
Defined.

(** C10 (the auth file reads [is_async] only).  Two configurations with
    auth enabled that agree on [is_async] get the same auth file, byte
    for byte, whatever their names, output roots, project types and
    non-[NONE] auth types. *)
Theorem auth_file_depends_on_is_async_only (c1 c2 : Config) :
  auth_type c1 <> Member NONE ->
  auth_type c2 <> Member NONE ->
  is_async c1 = is_async c2 ->
  exists a e1 i1 e2 i2,
    generate c1 [] =
      (Ok tt, [(endpoints_path c1, e1); (auth_path c1, a); (init_path c1, i1)]) /\
    generate c2 [] =
      (Ok tt, [(endpoints_path c2, e2); (auth_path c2, a); (init_path c2, i2)]).
Proof.
  intros H1 H2 Hasync. apply has_auth_true in H1, H2.
  destruct (generate_auth c1 [] H1) as (e1 & a1 & _ & Ha1 & Hg1).
  destruct (generate_auth c2 [] H2) as (e2 & a2 & _ & Ha2 & Hg2).
  rewrite (auth_reads_is_async c1 c2 Hasync), Ha2 in Ha1. injection Ha1 as <-.
  exists a2, e1, init_template_auth, e2, init_template_auth.
  split; assumption.
Qed.

Lemma auth_file_depends_on_is_async_only_witness :
  auth_type Samples.micro_auth_sync <> Member NONE /\
  auth_type Samples.foreign <> Member NONE /\
  is_async Samples.micro_auth_sync = is_async Samples.foreign /\
  exists a,
    In (auth_path Samples.micro_auth_sync, a) (snd (generate Samples.micro_auth_sync [])) /\
    In (auth_path Samples.foreign, a) (snd (generate Samples.foreign [])).
Proof.
  assert (H1 : auth_type Samples.micro_auth_sync <> Member NONE) by discriminate.
  assert (H2 : auth_type Samples.foreign <> Member NONE) by discriminate.
  split; [exact H1 | split; [exact H2 | split; [reflexivity | ]]].
  destruct (auth_file_depends_on_is_async_only _ _ H1 H2 eq_refl)
    as (a & e1 & i1 & e2 & i2 & Hg1 & Hg2).
  exists a. rewrite Hg1, Hg2. split; simpl; auto.
Defined.

(* ================================================================== *)
(** ** Further facts about lines and routes *)
(* ================================================================== *)

Lemma split_cons (sep : ascii) (s : string) :
  exists h t, split sep s = h :: t.
Proof.
  induction s as [|ch s (h & t & IH)]; simpl; [eauto | ].
  destruct (Ascii.eqb ch sep); [eauto | ]. rewrite IH. eauto.
Qed.

Lemma single_line_app (a b : string) :
  single_line a = true -> single_line b = true -> single_line (a ++ b) = true.
Proof.
  intros Ha Hb. induction a as [|ch a IH]; simpl in *; [exact Hb | ].
  apply andb_true_iff in Ha as [Hc Ha]. rewrite Hc. simpl. auto.
Qed.

(** A text of one line in front of [r] extends the first line of [r]. *)
Lemma split_single_line (u r h : string) (t : list string) :
  single_line u = true -> split nl r = h :: t ->
  split nl (u ++ r) = (u ++ h) :: t.
Proof.
  intros Hu Hr. induction u as [|ch u IH]; simpl in *; [exact Hr | ].
  apply andb_true_iff in Hu as [Hc Hu]. apply negb_true_iff in Hc.
  rewrite Hc, (IH Hu). reflexivity.
Qed.

Lemma route_of_line_off (x z : string) :
  no_route_start x = true -> route_of_line (x ++ z) = None.
Proof.
  unfold no_route_start, agree, route_of_line. intros H.
  apply negb_true_iff in H.
  destruct (startswith (x ++ z) "@router.") eqn:Hs; [ | reflexivity].
  apply startswith_split in Hs as [Hs | (n2 & Hn & _ & _)].
  - unfold route_mark in H. rewrite Hs in H. discriminate.
  - unfold route_mark in H. rewrite Hn, startswith_app_self, orb_true_r in H.
    discriminate.
Qed.

Lemma routes_first_line (u r : string) :
  single_line u = true ->
  exists h t,
    split nl r = h :: t /\
    routes (u ++ r) = routes_of_lines ((u ++ h) :: t).
Proof.
  intros Hu. destruct (split_cons nl r) as (h & t & Hr).
  exists h, t. split; [exact Hr | ].
  unfold routes, lines. now rewrite (split_single_line u r h t Hu Hr).
Qed.

(** A one-line text put on a line that is no route line adds no route
    and changes none. *)
Lemma routes_hole (p pre v r : string) :
  single_line pre = true -> single_line v = true ->
  no_route_start (last_line_from pre p) = true ->
  routes (pre ++ p ++ v ++ r) = routes (pre ++ p ++ r).
Proof.
  revert pre. induction p as [|ch p IH]; intros pre Hpre Hv Hoff.
  - simpl in *.
    destruct (routes_first_line (pre ++ v) r (single_line_app _ _ Hpre Hv))
      as (h & t & Hr & H1).
    destruct (routes_first_line pre r Hpre) as (h' & t' & Hr' & H2).
    rewrite Hr in Hr'. injection Hr' as <- <-.
    rewrite <- append_assoc_r, H1, H2. cbn [routes_of_lines].
    rewrite append_assoc_r, !route_of_line_off by exact Hoff. reflexivity.
  - cbn [last_line_from] in Hoff. destruct (Ascii.eqb ch nl) eqn:Hch.
    + apply Ascii.eqb_eq in Hch; subst ch.
      assert (Hcut : forall x, routes (pre ++ String nl x)
                = routes_of_lines (pre :: split nl x)).
      { intros x. unfold routes, lines.
        rewrite (split_single_line pre (String nl x) EmptyString (split nl x) Hpre).
        - f_equal. f_equal. clear. induction pre; simpl; congruence.
        - reflexivity. }
      simpl append. rewrite !Hcut. cbn [routes_of_lines].
      specialize (IH EmptyString eq_refl Hv Hoff). simpl in IH.
      unfold routes, lines in IH. rewrite IH. reflexivity.
    + assert (Hpre' : single_line (pre ++ String ch EmptyString) = true).
      { apply single_line_app; [exact Hpre | simpl; now rewrite Hch]. }
      specialize (IH _ Hpre' Hv Hoff).
      rewrite !append_assoc_r in IH. exact IH.
Qed.

Lemma holes_off_routes_cons2 (acc p q : string) (ps : list string) :
  holes_off_routes acc (p :: q :: ps) =
  no_route_start (last_line_from EmptyString (acc ++ p)) &&
  holes_off_routes (acc ++ p) (q :: ps).
Proof.
  reflexivity.
Qed.

(** Filling the holes with a one-line text gives the routes of the
    pieces alone. *)
Lemma routes_fill_from (ps : list string) (acc v : string) :
  single_line v = true -> holes_off_routes acc ps = true ->
  routes (acc ++ fill v ps) = routes (acc ++ fill EmptyString ps).
Proof.
  intros Hv. revert acc. induction ps as [|p ps IH]; intros acc H; [reflexivity | ].
  destruct ps as [|q ps]; [reflexivity | ].
  rewrite holes_off_routes_cons2 in H. apply andb_true_iff in H as [Hp Hrest].
  rewrite !fill_cons2.
  set (Fv := fill v (q :: ps)) in *. set (Fe := fill EmptyString (q :: ps)) in *.
  change (EmptyString ++ Fe) with Fe.
  pose proof (routes_hole (acc ++ p) EmptyString v Fv eq_refl Hv Hp) as Hh.
  change (routes ((acc ++ p) ++ v ++ Fv) = routes ((acc ++ p) ++ Fv)) in Hh.
  rewrite <- (append_assoc_r acc p (v ++ Fv)), Hh.
  rewrite <- (append_assoc_r acc p Fe).
  subst Fv Fe. apply IH. exact Hrest.
Qed.

Lemma routes_fill (ps : list string) (v : string) :
  single_line v = true -> holes_off_routes EmptyString ps = true ->
  routes (fill v ps) = routes (fill EmptyString ps).
Proof.
  intros Hv H. exact (routes_fill_from ps EmptyString v Hv H).
Qed.

Lemma endswith_app_r (a b s : string) :
  endswith b s = true -> endswith (a ++ b) s = true.
Proof.
  intros H. induction a as [|ch a IH]; [exact H | ].
  simpl append. now apply endswith_cons.
Qed.

Lemma startswith_fill (v s : string) (ps : list string) :
  startswith (hd EmptyString ps) s = true -> startswith (fill v ps) s = true.
Proof.
  intros H. destruct ps as [|p [|q ps]]; try exact H.
  rewrite fill_cons2. now apply startswith_app.
Qed.

Lemma endswith_fill (v s : string) (ps : list string) :
  endswith (last ps EmptyString) s = true -> endswith (fill v ps) s = true.
Proof.
  induction ps as [|p ps IH]; intros H; [exact H | ].
  destruct ps as [|q ps]; [exact H | ].
  rewrite fill_cons2. apply endswith_app_r, endswith_app_r.
  apply IH. exact H.
Qed.

Lemma startswith_app_both (a b s : string) :
  startswith (a ++ b) (a ++ s) = startswith b s.
Proof.
  induction a as [|ch a IH]; simpl; [reflexivity | ].
  now rewrite Ascii.eqb_refl.
Qed.

Lemma endswith_split (h s : string) :
  endswith h s = true -> exists x, h = x ++ s.
Proof.
  induction h as [|ch h IH]; intros H; rewrite endswith_unfold in H;
    apply orb_true_iff in H as [H | H]; try discriminate H.
  - apply String.eqb_eq in H. exists EmptyString. now subst.
  - apply String.eqb_eq in H. exists EmptyString. now subst.
  - destruct (IH H) as [x ->]. exists (String ch x). reflexivity.
Qed.

Lemma startswith_prefix (h p : string) :
  startswith h p = true -> exists y, h = p ++ y.
Proof.
  revert h. induction p as [|ch p IH]; intros h H; [exists h; reflexivity | ].
  destruct h as [|d h]; [discriminate H | ]. simpl in H.
  apply andb_true_iff in H as [Hc H]. apply Ascii.eqb_eq in Hc; subst d.
  destruct (IH _ H) as [y ->]. exists y. reflexivity.
Qed.

(** A filling between a piece that ends with [a] and one that starts
    with [b] is in the text with both around it. *)
Lemma contains_seam (a b v : string) (ps : list string) :
  seam a b ps = true -> contains (fill v ps) (a ++ v ++ b) = true.
Proof.
  induction ps as [|p ps IH]; intros H; [discriminate H | ].
  destruct ps as [|q ps]; [discriminate H | ].
  rewrite fill_cons2.
  change (seam a b (p :: q :: ps))
    with ((endswith p a && startswith q b) || seam a b (q :: ps)) in H.
  apply orb_true_iff in H as [H | H].
  - apply andb_true_iff in H as [Hp Hq].
    destruct (endswith_split _ _ Hp) as [x ->].
    destruct (fill_head v q ps) as [r Hr]. rewrite Hr.
    destruct (startswith_prefix _ _ Hq) as [y ->].
    rewrite !append_assoc_r. apply contains_app_r.
    rewrite <- (append_assoc_r v b), <- (append_assoc_r a (v ++ b)).
    apply contains_startswith, startswith_app_self.
  - apply contains_app_r, contains_app_r. auto.
Qed.

(* ================================================================== *)
(** ** Further properties of the generator *)
(* ================================================================== *)

(** X1 (routes of the endpoints file).  For a project name without a
    line break, the routes of the endpoints file are GET [/] and GET
    [/health] followed by those of the project-specific fragment: POST
    [/predict] and GET [/model/info] for [ML_API], GET [/status] and POST
    [/process] for [MICROSERVICE], none for any other value; and the
    fragment alone has exactly the latter. *)
Theorem endpoints_routes (c : Config) :
  single_line (name c) = true ->
  exists e f,
    _get_endpoints_template c = Ok e /\
    project_specific_endpoints c = Ok f /\
    routes e = ([("get", "/"); ("get", "/health")]
                  ++ specific_routes (project_type c))%list /\
    routes f = specific_routes (project_type c).
Proof.
  intros H.
  exists (fill (name c) (endpoints_pieces c)), (fill (name c) (specific_pieces c)).
  split; [apply endpoints_fill | split; [apply specific_fill | ]].
  split; (rewrite routes_fill; [ | exact H | ]); clear H;
    cases c; vm_compute; reflexivity.
Qed.

Lemma endpoints_routes_witness :
  single_line (name Samples.micro_auth_sync) = true /\
  exists e,
    _get_endpoints_template Samples.micro_auth_sync = Ok e /\
    routes e = [("get", "/"); ("get", "/health"); ("get", "/status"); ("post", "/process")].
Proof.
  split; [reflexivity | ].
  destruct (endpoints_routes Samples.micro_auth_sync eq_refl) as (e & f & He & _ & Hr & _).
  exists e. split; assumption.
Defined.

(** X2 (the name is put in verbatim).  The endpoints file reads the
    project name only to put it, as it is, at fixed places of a text
    that does not depend on it: two places, three for a microservice.
    Braces or quotes in the name are not read again as template text. *)
Theorem endpoints_name_verbatim (c : Config) :
  exists ps,
    List.length ps
      = (if eq_member ProjectType_eqb (project_type c) MICROSERVICE then 4 else 3) /\
    forall nm, _get_endpoints_template (with_name nm c) = Ok (fill nm ps).
Proof.
  exists (endpoints_pieces c). split.
  - cases c; vm_compute; reflexivity.
  - intros nm. rewrite endpoints_fill. reflexivity.
Qed.

(** X3 (output paths).  Whatever was written before, [generate] writes
    each path once, and every path it writes lies under
    [<output root>/app/api/v1/] and ends in [.py]. *)
Theorem generate_paths (c : Config) (w : written) :
  exists files,
    generate c w = (Ok tt, (w ++ files)%list) /\
    NoDup (map fst files) /\
    Forall (fun p => startswith p (path c ++ "/app/api/v1/") = true /\
                     endswith p ".py" = true) (map fst files).
Proof.
  assert (Hp : forall s, startswith (path c ++ "/app/api/v1/" ++ s) (path c ++ "/app/api/v1/")
                         = true).
  { intros s. rewrite <- (append_assoc_r (path c)). apply startswith_app_self. }
  assert (He : forall s, endswith s ".py" = true -> endswith (path c ++ s) ".py" = true).
  { intros s. apply endswith_app_r. }
  destruct (paths_differ c) as (H1 & H2 & H3).
  destruct (has_auth c) eqn:H.
  - destruct (generate_auth c w H) as (e & a & _ & _ & Hg).
    eexists. split; [exact Hg | ]. simpl map. split.
    + repeat constructor; simpl; intuition congruence.
    + repeat constructor; try apply (Hp "endpoints.py"); try apply (Hp "auth.py");
        try apply (Hp "__init__.py"); apply He; reflexivity.
  - destruct (generate_plain c w H) as (e & _ & Hg).
    eexists. split; [exact Hg | ]. simpl map. split.
    + repeat constructor; simpl; intuition congruence.
    + repeat constructor; try apply (Hp "endpoints.py");
        try apply (Hp "__init__.py"); apply He; reflexivity.
Qed.

(** X4 (what the endpoints file reads).  Two configurations with the
    same name and [is_async], both with or both without auth, and both
    [ML_API], both [MICROSERVICE] or both neither, get the same endpoints
    file: the output root, the auth variant and which other project type
    it is do not show in it. *)
Theorem endpoints_reads (c1 c2 : Config) :
  name c1 = name c2 ->
  is_async c1 = is_async c2 ->
  has_auth c1 = has_auth c2 ->
  eq_member ProjectType_eqb (project_type c1) ML_API
    = eq_member ProjectType_eqb (project_type c2) ML_API ->
  eq_member ProjectType_eqb (project_type c1) MICROSERVICE
    = eq_member ProjectType_eqb (project_type c2) MICROSERVICE ->
  _get_endpoints_template c1 = _get_endpoints_template c2.
Proof.
  intros Hn Ha Hh Hml Hms.
  unfold _get_endpoints_template, project_specific_endpoints, _get_ml_endpoints,
    _get_microservice_endpoints, get_template_vars, auth_imports,
    auth_endpoints_include, database_imports.
  rewrite Hn, Ha, Hh, Hml, Hms. reflexivity.
Qed.

Lemma endpoints_reads_witness :
  _get_endpoints_template Samples.generic_auth_async
  = _get_endpoints_template
      (mkConfig "portal" "elsewhere" (Foreign "'graphql'") (Foreign "'ldap'") true).
Proof.
  apply (endpoints_reads Samples.generic_auth_async); reflexivity.
Defined.


(** X6 (auth names with auth).  With [auth_type != NONE] the endpoints
    file imports [get_current_user], and for [ML_API] and [MICROSERVICE]
    the handlers take it as the default of [current_user], written
    [if True else None]; the text [if False else None] is in the file only
    if the project name holds it. *)
Theorem endpoints_import_auth_when_enabled (c : Config) :
  auth_type c <> Member NONE ->
  exists e,
    _get_endpoints_template c = Ok e /\
    contains e "from app.core.security import get_current_user" = true /\
    (project_type c = Member ML_API \/ project_type c = Member MICROSERVICE ->
     contains e "current_user: User = Depends(get_current_user) if True else None" = true /\
     contains e "if False else None" = contains (name c) "if False else None").
Proof.
  intros Hauth. apply has_auth_true in Hauth.
  exists (fill (name c) (endpoints_pieces c)).
  split; [apply endpoints_fill | ]. split.
  - apply present_fill. cases c; try discriminate Hauth; vm_compute; reflexivity.
  - intros Hpt. split; [apply present_fill | apply contains_fill];
      cases c; try discriminate Hauth;
      try (destruct Hpt as [Hpt | Hpt]; discriminate Hpt);
      vm_compute; reflexivity.
Qed.

Lemma endpoints_import_auth_when_enabled_witness :
  auth_type Samples.micro_auth_sync <> Member NONE /\
  exists e,
    _get_endpoints_template Samples.micro_auth_sync = Ok e /\
    contains e "from app.core.security import get_current_user" = true /\
    contains e "if False else None" = false.
Proof.
  assert (H : auth_type Samples.micro_auth_sync <> Member NONE) by discriminate.
  split; [exact H | ].
  destruct (endpoints_import_auth_when_enabled Samples.micro_auth_sync H)
    as (e & He & Hi & Hd).
  exists e. split; [exact He | split; [exact Hi | ]].
  destruct Hd as [_ Hd]; [right; reflexivity | ]. rewrite Hd. reflexivity.
Defined.

(** X7 (the index imports what is generated).  The index file written by
    [generate] imports the endpoints module, which is always written,
    and imports the auth module exactly when the auth file is written:
    it never names a module that [generate] did not produce. *)
Theorem index_imports_generated_modules (c : Config) :
  exists files,
    generate c [] = (Ok tt, files) /\
    forall i,
      In (init_path c, i) files ->
      contains i "from .endpoints import router" = true /\
      In (endpoints_path c) (map fst files) /\
      (contains i "from .auth import router" = true <->
       In (auth_path c) (map fst files)).
Proof.
  destruct (paths_differ c) as (H1 & H2 & H3).
  destruct (has_auth c) eqn:H.
  - destruct (generate_auth c [] H) as (e & a & _ & _ & Hg).
    eexists. split; [exact Hg | ]. intros i Hin.
    assert (i = init_template_auth) as ->.
    { simpl in Hin. destruct Hin as [Hin | [Hin | [Hin | []]]];
        first [injection Hin as Hp Hi; congruence | injection Hin as Hi; congruence]. }
    split; [vm_compute; reflexivity | ]. split; [simpl; auto | ].
    split; intros _; [simpl; auto | vm_compute; reflexivity].
  - destruct (generate_plain c [] H) as (e & _ & Hg).
    eexists. split; [exact Hg | ]. intros i Hin.
    assert (i = init_template_plain) as ->.
    { simpl in Hin. destruct Hin as [Hin | [Hin | []]];
        first [injection Hin as Hp Hi; congruence | injection Hin as Hi; congruence]. }
    split; [vm_compute; reflexivity | ]. split; [simpl; auto | ].
    split; intros Hc; [vm_compute in Hc; discriminate | ].
    simpl in Hc. intuition congruence.
Qed.

(** X8 (every file is a module text).  Every content [generate] writes
    starts with the three quotes of a docstring and ends with a newline,
    whatever the project name. *)
Theorem files_start_and_end (c : Config) :
  exists files,
    generate c [] = (Ok tt, files) /\
    Forall (fun f => startswith (snd f) (py "```") = true /\
                     endswith (snd f) (String nl EmptyString) = true) files.
Proof.
  assert (He : startswith (fill (name c) (endpoints_pieces c)) (py "```") = true /\
               endswith (fill (name c) (endpoints_pieces c)) (String nl EmptyString) = true).
  { split; [apply startswith_fill | apply endswith_fill];
      cases c; vm_compute; reflexivity. }
  destruct (has_auth c) eqn:H.
  - destruct (generate_auth c [] H) as (e & a & Hend & Ha & Hg).
    rewrite endpoints_fill in Hend. injection Hend as <-.
    eexists. split; [exact Hg | ].
    repeat constructor; try apply He; try (vm_compute; reflexivity);
      clear He Hg H; cases c; vm_compute in Ha; injection Ha as <-;
      vm_compute; reflexivity.
  - destruct (generate_plain c [] H) as (e & Hend & Hg).
    rewrite endpoints_fill in Hend. injection Hend as <-.
    eexists. split; [exact Hg | ].
    repeat constructor; try apply He; vm_compute; reflexivity.
Qed.

(** X9 (the name in the messages).  Every endpoints file greets with
    [Welcome to <name> API] and reports ["service": "<name>"], for the
    project name as it is. *)
Theorem endpoints_messages_carry_name (c : Config) :
  exists e,
    _get_endpoints_template c = Ok e /\
    contains e ("Welcome to " ++ name c ++ " API") = true /\
    contains e (py "`service`: `" ++ name c ++ py "`") = true.
Proof.
  exists (fill (name c) (endpoints_pieces c)).
  split; [apply endpoints_fill | ].
  split; apply contains_seam; cases c; vm_compute; reflexivity.
Qed.

(* ================================================================== *)
(** ** Further properties of the emitted handlers *)
(* ================================================================== *)

(** X10 (no second registration).  Over a security layer whose lookup
    leaves the database as it is, finds an email once a user was created
    for it, and keeps finding an email it found when another user is
    created: when the registration handler succeeds for an email, then
    after any run of further registration requests it raises HTTP 400 for
    a request with that email and leaves the database as it is. *)
Theorem register_twice_rejected {DB User : Type} (sec : AuthModule.Security DB User)
    (c : Config) :
  (forall db e, snd (AuthModule.get_user_by_email sec db e) = db) ->
  (forall db e p,
     fst (AuthModule.get_user_by_email sec
            (snd (AuthModule.create_user sec db e p)) e) <> None) ->
  (forall db e e' p,
     fst (AuthModule.get_user_by_email sec db e) <> None ->
     fst (AuthModule.get_user_by_email sec
            (snd (AuthModule.create_user sec db e' p)) e) <> None) ->
  forall (d : AuthModule.Credentials) (db : DB),
    fst (AuthModule.get_user_by_email sec db (AuthModule.email d)) = None ->
    exists u db1,
      AuthModule.register sec (AuthModule.register_of c) d db
      = (AuthModule.Returned (AuthModule.VUser u), db1) /\
      forall (between : list AuthModule.Credentials) (d2 : AuthModule.Credentials),
        AuthModule.email d2 = AuthModule.email d ->
        AuthModule.register sec (AuthModule.register_of c) d2
          (AuthModule.after_registrations sec (AuthModule.register_of c) between db1)
        = (AuthModule.Raised
             (AuthModule.mkHTTPException 400 "Email already registered" []),
           AuthModule.after_registrations sec (AuthModule.register_of c) between db1).
Proof.
  intros Hpure Hfound Hkeep d db Hnone.
  unfold AuthModule.register_of.
  set (h := AuthModule.register_user (session_type c) (is_async c)).
  assert (Hstep : forall e db0 d',
            fst (AuthModule.get_user_by_email sec db0 e) <> None ->
            fst (AuthModule.get_user_by_email sec
                   (snd (AuthModule.register sec h d' db0)) e) <> None).
  { intros e db0 d' He. subst h. rewrite register_runs.
    pose proof (Hpure db0 (AuthModule.email d')) as Hdb.
    destruct (AuthModule.get_user_by_email sec db0 (AuthModule.email d')) as [[u | ] db'];
      simpl in Hdb; subst db'.
    - exact He.
    - pose proof (Hkeep db0 e (AuthModule.email d') (AuthModule.password d') He) as Hk.
      destruct (AuthModule.create_user sec db0 (AuthModule.email d')
                  (AuthModule.password d')).
      exact Hk. }
  assert (Hinv : forall e between db0,
            fst (AuthModule.get_user_by_email sec db0 e) <> None ->
            fst (AuthModule.get_user_by_email sec
                   (AuthModule.after_registrations sec h between db0) e) <> None).
  { intros e between. induction between as [|d' between IH]; intros db0 He; [exact He | ].
    apply IH, Hstep, He. }
  subst h. rewrite register_runs.
  pose proof (Hpure db (AuthModule.email d)) as Hdb.
  destruct (AuthModule.get_user_by_email sec db (AuthModule.email d)) as [o db0].
  simpl in Hnone, Hdb. subst o db0.
  pose proof (Hfound db (AuthModule.email d) (AuthModule.password d)) as Hf.
  destruct (AuthModule.create_user sec db (AuthModule.email d) (AuthModule.password d))
    as [u db1].
  simpl in Hf. exists u, db1. split; [reflexivity | ].
  intros between d2 He. rewrite register_runs, He.
  set (db2 := AuthModule.after_registrations sec _ between db1).
  pose proof (Hinv (AuthModule.email d) between db1 Hf) as Hin. fold db2 in Hin.
  pose proof (Hpure db2 (AuthModule.email d)) as Hdb2.
  destruct (AuthModule.get_user_by_email sec db2 (AuthModule.email d)) as [o db3].
  simpl in Hin, Hdb2. subst db3.
  destruct o; [reflexivity | congruence].
Qed.

Lemma register_twice_rejected_witness :
  exists u db1,
    AuthModule.register MemoryStore.security
      (AuthModule.register_of Samples.micro_auth_sync) MemoryStore.alice []
    = (AuthModule.Returned (AuthModule.VUser u), db1) /\
    AuthModule.register MemoryStore.security
      (AuthModule.register_of Samples.micro_auth_sync) MemoryStore.alice
      (AuthModule.after_registrations MemoryStore.security
         (AuthModule.register_of Samples.micro_auth_sync) [MemoryStore.bob] db1)
    = (AuthModule.Raised
         (AuthModule.mkHTTPException 400 "Email already registered" []),
       AuthModule.after_registrations MemoryStore.security
         (AuthModule.register_of Samples.micro_auth_sync) [MemoryStore.bob] db1).
Proof.
  destruct (register_twice_rejected MemoryStore.security Samples.micro_auth_sync) with
    (d := MemoryStore.alice) (db := @nil (string * string)) as (u & db1 & H1 & H2).
  - intros db e. reflexivity.
  - intros db e p. simpl. unfold MemoryStore.lookup. simpl.
    rewrite String.eqb_refl. discriminate.
  - intros db e e' p. simpl. unfold MemoryStore.lookup. simpl.
    destruct (String.eqb e' e); [discriminate | auto].
  - reflexivity.
  - exists u, db1. split; [exact H1 | apply H2; reflexivity].
Defined.

(** X11 (login after registration).  Over a security layer whose lookup
    leaves the database as it is, that authenticates a user it created
    by the credentials given at creation, whose created user carries the
    email given at creation, and whose token expiry is one a [timedelta]
    holds: after the registration handler succeeds, the login handler,
    given the same credentials, returns a bearer token made for the
    registered email and leaves the database as it is. *)
Theorem login_after_register {DB User : Type} (sec : AuthModule.Security DB User)
    (c : Config) :
  (forall db e, snd (AuthModule.get_user_by_email sec db e) = db) ->
  (forall db e p,
     AuthModule.authenticate_user sec (snd (AuthModule.create_user sec db e p)) e p
     = (Some (fst (AuthModule.create_user sec db e p)),
        snd (AuthModule.create_user sec db e p))) ->
  (forall db e p,
     AuthModule.user_email sec (fst (AuthModule.create_user sec db e p)) = e) ->
  AuthModule.timedelta_minutes (AuthModule.ACCESS_TOKEN_EXPIRE_MINUTES sec)
  = Some (AuthModule.ACCESS_TOKEN_EXPIRE_MINUTES sec) ->
  forall (d : AuthModule.Credentials) (db : DB),
    fst (AuthModule.get_user_by_email sec db (AuthModule.email d)) = None ->
    exists u db1,
      AuthModule.register sec (AuthModule.register_of c) d db
      = (AuthModule.Returned (AuthModule.VUser u), db1) /\
      AuthModule.login sec (AuthModule.login_of c) d db1 =
        (AuthModule.Returned
           (AuthModule.VDict
              [("access_token",
                AuthModule.VStr
                  (AuthModule.create_access_token sec [("sub", AuthModule.email d)]
                     (AuthModule.ACCESS_TOKEN_EXPIRE_MINUTES sec)));
               ("token_type", AuthModule.VStr "bearer")]), db1).
Proof.
  intros Hpure Hauth Hmail Hrange d db Hnone.
  unfold AuthModule.register_of, AuthModule.login_of.
  rewrite register_runs.
  pose proof (Hpure db (AuthModule.email d)) as Hdb.
  destruct (AuthModule.get_user_by_email sec db (AuthModule.email d)) as [o db0].
  simpl in Hnone, Hdb. subst o db0.
  pose proof (Hauth db (AuthModule.email d) (AuthModule.password d)) as Ha.
  pose proof (Hmail db (AuthModule.email d) (AuthModule.password d)) as Hm.
  destruct (AuthModule.create_user sec db (AuthModule.email d) (AuthModule.password d))
    as [u db1].
  simpl in Ha, Hm. exists u, db1. split; [reflexivity | ].
  rewrite login_runs, Ha, Hrange, Hm. reflexivity.
Qed.

Lemma login_after_register_witness :
  exists u db1,
    AuthModule.register MemoryStore.security
      (AuthModule.register_of Samples.generic_auth_async) MemoryStore.alice []
    = (AuthModule.Returned (AuthModule.VUser u), db1) /\
    AuthModule.login MemoryStore.security
      (AuthModule.login_of Samples.generic_auth_async) MemoryStore.alice db1
    = (AuthModule.Returned
         (AuthModule.VDict
            [("access_token", AuthModule.VStr "token for alice@example.org");
             ("token_type", AuthModule.VStr "bearer")]), db1).
Proof.
  destruct (login_after_register MemoryStore.security Samples.generic_auth_async) with
    (d := MemoryStore.alice) (db := @nil (string * string)) as (u & db1 & H1 & H2).
  - intros db e. reflexivity.
  - intros db e p. simpl. unfold MemoryStore.lookup. simpl.
    rewrite !String.eqb_refl. reflexivity.
  - intros db e p. reflexivity.
  - reflexivity.
  - reflexivity.
  - exists u, db1. split; [exact H1 | exact H2].
Defined.
